(** * Gametime ticket watcher: a shallow embedding of [src/platforms/gametime.ts]

    The module polls a resale endpoint, validates the document it gets,
    keeps the listings that fit the configured seats, sections and price,
    tracks the lowest price seen per tick and sends a throttled push alert.

    Modelling conventions.
    - A JavaScript [number] is an exact rational ([Q]); comparisons are the
      rational ones and [==] on numbers is [Qeq].  Rounding of IEEE doubles,
      [NaN] and the infinities are outside the model.
    - Counts that the source uses as array lengths or loop bounds
      ([SEATS_TOGETHER], [MAX_RETURN_LIST], [MIN_ERROR_COUNT], [ERROR_COUNT])
      are natural numbers; clock readings and minutes are integers.
    - A JavaScript object is the list of its own properties in enumeration
      order, which is the order [Object.values] walks.
    - The module-level [let]/[const] bindings that [check] mutates form the
      record [Globals]; [check] is a function from the globals before a
      tick to the globals after it, the console and alert effects it
      performed, and whether its promise resolved or rejected. *)

From Stdlib Require Import String Ascii List Bool Arith ZArith QArith Qminmax Qround Qabs Lia Lqa.
From Stdlib Require Import Sorting.Sorted Sorting.Permutation DecimalString.
Import ListNotations.

#[local] Set Warnings "-register-all".

Open Scope list_scope.
Open Scope string_scope.

(** ** A small option monad for the schema validators *)

Definition bind {A B : Type} (m : option A) (k : A -> option B) : option B :=
  match m with
  | Some a => k a
  | None => None
  end.

Notation "x <- m ;; k" := (bind m (fun x => k))
  (at level 61, m at next level, right associativity).

Fixpoint traverse {A B : Type} (f : A -> option B) (xs : list A) : option (list B) :=
  match xs with
  | [] => Some []
  | x :: rest =>
      y <- f x ;;
      ys <- traverse f rest ;;
      Some (y :: ys)
  end.

(** ** JSON documents, as [res.json()] yields them *)

Inductive JSON : Type :=
| JNull
| JBool (b : bool)
| JNumber (q : Q)
| JString (s : string)
| JArray (items : list JSON)
| JObject (props : list (string * JSON)).

(** [o[k]]: the value of own property [k], [None] standing for [undefined]. *)
Fixpoint prop (k : string) (props : list (string * JSON)) : option JSON :=
  match props with
  | [] => None
  | (k', v) :: rest => if String.eqb k k' then Some v else prop k rest
  end.

(** ** The zod combinators the schema is built from *)

Module z.

Definition number (j : JSON) : option Q :=
  match j with JNumber q => Some q | _ => None end.

Definition string (j : JSON) : option String.string :=
  match j with JString s => Some s | _ => None end.

Definition any (j : JSON) : option JSON := Some j.

Definition nullable {A : Type} (p : JSON -> option A) (j : JSON) : option (option A) :=
  match j with
  | JNull => Some None
  | _ => a <- p j ;; Some (Some a)
  end.

Definition array {A : Type} (p : JSON -> option A) (j : JSON) : option (list A) :=
  match j with JArray items => traverse p items | _ => None end.

(** [ParseStatus.mergeObjectSync]: the validated entries are assigned to a
    fresh object one by one, except an entry whose key is [__proto__]. *)
Definition mergeObjectSync {A : Type} (pairs : list (String.string * A))
  : list (String.string * A) :=
  filter (fun kv => negb (String.eqb (fst kv) "__proto__")) pairs.

(** Every value of the object has to validate, whatever its key; the
    validated entries are then merged. *)
Definition record {A : Type} (p : JSON -> option A) (j : JSON)
  : option (list (String.string * A)) :=
  match j with
  | JObject props =>
      pairs <- traverse (fun kv => a <- p (snd kv) ;; Some (fst kv, a)) props ;;
      Some (mergeObjectSync pairs)
  | _ => None
  end.

(** A required key of a [z.object]: a missing key reads as [undefined],
    which none of the validators used here accepts. *)
Definition field {A : Type} (k : String.string) (p : JSON -> option A)
           (props : list (String.string * JSON)) : option A :=
  v <- prop k props ;; p v.

End z.

(** ** Listings (lines 32-57) *)

Record Price : Type := {
  face_value : option Q;
  prefee : Q;
  total : Q;
  sales_tax : Q
}.

Record Listing : Type := {
  price : Price;
  lots : list Q;
  seats : list string;
  id : string;
  row : string;
  section : string;
  section_group : string
}.

Definition priceObj (j : JSON) : option Price :=
  match j with
  | JObject o =>
      fv <- z.field "face_value" (z.nullable z.number) o ;;
      pf <- z.field "prefee" z.number o ;;
      tt <- z.field "total" z.number o ;;
      tx <- z.field "sales_tax" z.number o ;;
      Some {| face_value := fv; prefee := pf; total := tt; sales_tax := tx |}
  | _ => None
  end.

Definition listingObj (j : JSON) : option Listing :=
  match j with
  | JObject o =>
      p <- z.field "price" priceObj o ;;
      ls <- z.field "lots" (z.array z.number) o ;;
      ss <- z.field "seats" (z.array z.string) o ;;
      i <- z.field "id" z.string o ;;
      r <- z.field "row" z.string o ;;
      s <- z.field "section" z.string o ;;
      g <- z.field "section_group" z.string o ;;
      Some {| price := p; lots := ls; seats := ss; id := i; row := r;
              section := s; section_group := g |}
  | _ => None
  end.

Record Output : Type := {
  display_groups : list JSON;
  listings : list (string * Listing)
}.

(** [outputSchema.safeParse]: [Some data] when [res.success], else [None]. *)
Definition outputSchema_safeParse (j : JSON) : option Output :=
  match j with
  | JObject o =>
      dg <- z.field "display_groups" (z.array z.any) o ;;
      ls <- z.field "listings" (z.record listingObj) o ;;
      Some {| display_groups := dg; listings := ls |}
  | _ => None
  end.

Definition Object_values {A : Type} (o : list (string * A)) : list A := map snd o.

(** ** Patterns

    Every pattern of the source is a literal anchored at the start of the
    subject ([/^PR/], [/^Loge/]); [StartsWith lit] is [/^lit/]. *)

Inductive RegExp : Type := StartsWith (lit : string).

Definition test (r : RegExp) (subject : string) : bool :=
  match r with StartsWith lit => String.prefix lit subject end.

Definition RegExp_toString (r : RegExp) : string :=
  match r with StartsWith lit => "/^" ++ lit ++ "/" end.

Definition some {A : Type} (f : A -> bool) (xs : list A) : bool := existsb f xs.

Definition includes (xs : list Q) (x : Q) : bool := existsb (fun y => Qeq_bool y x) xs.

(** ** Configuration (lines 11-24) *)

Record Config : Type := {
  PLATFORM_NAME : string;
  EVENT_ID : string;
  EVENT_NAME : string;
  SEATS_TOGETHER : nat;
  MAX_ALL_IN_PRICE_PER_SEAT : Q;
  SECTIONS_REGEX : list RegExp;
  SECTION_GROUP_NAMES : list RegExp;
  MAX_RETURN_LIST : nat;
  MIN_ERROR_COUNT : nat;
  TEXT_MAX_FREQUENCY_MINS : Z
}.

Definition gametime : Config := {|
  PLATFORM_NAME := "Gametime";
  EVENT_ID := "64de74ca2d4ca900013dffc6";
  EVENT_NAME := "Lakers vs. Suns";
  SEATS_TOGETHER := 2;
  MAX_ALL_IN_PRICE_PER_SEAT := 350;
  SECTIONS_REGEX := [StartsWith "PR"; StartsWith "1"];
  SECTION_GROUP_NAMES := [StartsWith "Premier"; StartsWith "Loge"; StartsWith "Baseline"];
  MAX_RETURN_LIST := 10;
  MIN_ERROR_COUNT := 4;
  TEXT_MAX_FREQUENCY_MINS := 15
|}.

Definition number_of_nat (n : nat) : Q := inject_Z (Z.of_nat n).

(** ** Prices (lines 69-80) *)

Definition calculateTotalPrice (listing : Listing) : Q :=
  let allIn := prefee (price listing) + total (price listing) + sales_tax (price listing) in
  allIn / 100.

Definition Qlt_bool (x y : Q) : bool := negb (Qle_bool y x).

(** [price.toLocaleString('en-US', {style: 'currency', currency: 'USD',
    maximumFractionDigits: 0})]: the magnitude rounded to a whole number,
    halves away from zero, its digits grouped by three, after the dollar
    sign; a negative price carries a leading minus. *)

Fixpoint group_thousands (units_first : list ascii) : list ascii :=
  match units_first with
  | a :: b :: c :: (_ :: _) as more => a :: b :: c :: ","%char :: group_thousands more
  | _ => units_first
  end.

Definition digits (n : N) : list ascii :=
  list_ascii_of_string (NilZero.string_of_uint (N.to_uint n)).

Definition grouped (n : N) : string :=
  string_of_list_ascii (rev (group_thousands (rev (digits n)))).

Definition round_half_expand (magnitude : Q) : N :=
  Z.to_N (Qfloor (magnitude + (1 # 2))).

Definition fmtPrice (price : Q) : string :=
  (if Qlt_bool price 0 then "-" else "") ++ "$" ++ grouped (round_half_expand (Qabs price)).

Definition String_of_nat (n : nat) : string := NilZero.string_of_uint (Nat.to_uint n).

Definition String_of_int (n : Z) : string := NilZero.string_of_int (Z.to_int n).

(** ** Selecting and ranking the listings (lines 105-131) *)

(** The callback of [.filter] (lines 106-125). *)
Definition qualifies (cfg : Config) (l : Listing) : bool :=
  if (length (seats l) <? SEATS_TOGETHER cfg)%nat then false
  else if negb (includes (lots l) (number_of_nat (SEATS_TOGETHER cfg))) then false
  else if negb (some (fun r => test r (section l)) (SECTIONS_REGEX cfg))
          && negb (some (fun r => test r (section_group l)) (SECTION_GROUP_NAMES cfg))
       then false
  else if Qlt_bool (MAX_ALL_IN_PRICE_PER_SEAT cfg) (calculateTotalPrice l) then false
  else true.

(** The callback of [.sort] (lines 126-130). *)
Definition by_price (a b : Listing) : Q :=
  let aPrice := calculateTotalPrice a in
  let bPrice := calculateTotalPrice b in
  aPrice - bPrice.

(** [Array.prototype.sort] is a stable sort: an element moves behind another
    only when the comparator is positive on the pair.  Insertion from the
    right end realises it. *)
Fixpoint insert {A : Type} (compareFn : A -> A -> Q) (x : A) (sorted : list A) : list A :=
  match sorted with
  | [] => [x]
  | y :: rest =>
      if Qlt_bool 0 (compareFn x y) then y :: insert compareFn x rest
      else x :: sorted
  end.

Definition sort {A : Type} (compareFn : A -> A -> Q) (xs : list A) : list A :=
  fold_right (insert compareFn) [] xs.

(** [xs.slice(0, n)] for a count [n]. *)
Definition slice0 {A : Type} (n : nat) (xs : list A) : list A := firstn n xs.

Definition filter_listings (cfg : Config) (ls : list Listing) : list Listing :=
  filter (qualifies cfg) ls.

(** The value assigned to [AVAILABLE_SEATS] on line 105. *)
Definition select (cfg : Config) (data : Output) : list Listing :=
  slice0 (MAX_RETURN_LIST cfg)
         (sort by_price (filter_listings cfg (Object_values (listings data)))).

(** ** Module state (lines 30, 59-63) *)

Record Globals : Type := {
  pricesSeen : list Q;
  AVAILABLE_SEATS : list Listing;
  LAST_TEXT_SENT_AT : Z;
  ERROR_COUNT : nat;
  ERROR : bool;
  STATUS_MESSAGE : string
}.

Definition initial : Globals := {|
  pricesSeen := [];
  AVAILABLE_SEATS := [];
  LAST_TEXT_SENT_AT := 0;
  ERROR_COUNT := 0;
  ERROR := false;
  STATUS_MESSAGE := "NO_SEATS"
|}.

Definition set_pricesSeen (v : list Q) (g : Globals) : Globals :=
  {| pricesSeen := v; AVAILABLE_SEATS := AVAILABLE_SEATS g;
     LAST_TEXT_SENT_AT := LAST_TEXT_SENT_AT g; ERROR_COUNT := ERROR_COUNT g;
     ERROR := ERROR g; STATUS_MESSAGE := STATUS_MESSAGE g |}.

Definition set_AVAILABLE_SEATS (v : list Listing) (g : Globals) : Globals :=
  {| pricesSeen := pricesSeen g; AVAILABLE_SEATS := v;
     LAST_TEXT_SENT_AT := LAST_TEXT_SENT_AT g; ERROR_COUNT := ERROR_COUNT g;
     ERROR := ERROR g; STATUS_MESSAGE := STATUS_MESSAGE g |}.

Definition set_LAST_TEXT_SENT_AT (v : Z) (g : Globals) : Globals :=
  {| pricesSeen := pricesSeen g; AVAILABLE_SEATS := AVAILABLE_SEATS g;
     LAST_TEXT_SENT_AT := v; ERROR_COUNT := ERROR_COUNT g;
     ERROR := ERROR g; STATUS_MESSAGE := STATUS_MESSAGE g |}.

Definition set_ERROR_COUNT (v : nat) (g : Globals) : Globals :=
  {| pricesSeen := pricesSeen g; AVAILABLE_SEATS := AVAILABLE_SEATS g;
     LAST_TEXT_SENT_AT := LAST_TEXT_SENT_AT g; ERROR_COUNT := v;
     ERROR := ERROR g; STATUS_MESSAGE := STATUS_MESSAGE g |}.

Definition set_ERROR (v : bool) (g : Globals) : Globals :=
  {| pricesSeen := pricesSeen g; AVAILABLE_SEATS := AVAILABLE_SEATS g;
     LAST_TEXT_SENT_AT := LAST_TEXT_SENT_AT g; ERROR_COUNT := ERROR_COUNT g;
     ERROR := v; STATUS_MESSAGE := STATUS_MESSAGE g |}.

Definition set_STATUS_MESSAGE (v : string) (g : Globals) : Globals :=
  {| pricesSeen := pricesSeen g; AVAILABLE_SEATS := AVAILABLE_SEATS g;
     LAST_TEXT_SENT_AT := LAST_TEXT_SENT_AT g; ERROR_COUNT := ERROR_COUNT g;
     ERROR := ERROR g; STATUS_MESSAGE := v |}.

Definition getStatusMessage (g : Globals) : string :=
  if ERROR g then "ERROR" else STATUS_MESSAGE g.

(** ** What a tick meets and what it does

    One call of [check] reads the outcome of the fetch, two clock readings
    (lines 202 and 209) and whether the push alert it awaits rejects.
    [try_throws] says that the runtime raised an exception while the [try]
    body ran; the body assigns [AVAILABLE_SEATS] as its last step, so such
    an exception leaves every global as it was when the body started. *)

Inductive Fetch : Type :=
| fetch_rejects
| fetch_resolves (response : JSON).

Record Env : Type := {
  fetched : Fetch;
  try_throws : bool;
  Date_now_gate : Z;
  Date_now_stamp : Z;
  sendPushAlert_rejects : bool
}.

Inductive Effect : Type :=
| console_log (text : string)
| console_log_ZodError
| console_error_caught
| sendPushAlert (mode : string) (message : string).

Inductive Completion : Type := Resolved | Rejected.

Record Tick : Type := {
  globals : Globals;
  effects : list Effect;
  completion : Completion
}.

Definition returns (g : Globals) (done : list Effect) : Tick :=
  {| globals := g; effects := done; completion := Resolved |}.

(** ** The price trend (lines 167-194) *)

Inductive Trend : Type := NEW_LOW | DECREASED | INCREASED | UNCHANGED.

(** [Math.min(...xs)] for a non-empty array [x :: xs]. *)
Definition Math_min (x : Q) (xs : list Q) : Q := fold_left Qmin xs x.

(** The chain of comparisons on lines 175-194. *)
Definition classify (lowestPriceSeen lastPriceSeen lowestPrice : Q) : Trend :=
  if Qlt_bool lowestPrice lowestPriceSeen then NEW_LOW
  else if Qlt_bool lowestPrice lastPriceSeen then DECREASED
  else if Qlt_bool lastPriceSeen lowestPrice then INCREASED
  else UNCHANGED.

(** The branch the tick takes for a history and a new lowest price: the
    empty history goes straight on to the readout, as a new lowest price
    does. *)
Definition trend (history : list Q) (lowestPrice : Q) : Trend :=
  match history with
  | [] => NEW_LOW
  | p :: ps => classify (Math_min p ps) (last ps p) lowestPrice
  end.

(** ** The status text (lines 150-163, 176-178, 197-199) *)

Definition nl : string := String "010"%char "".

Definition readout_line (cfg : Config) (l : Listing) : string :=
  let allInEach := calculateTotalPrice l in
  let total := allInEach * number_of_nat (SEATS_TOGETHER cfg) in
  let formattedEach := fmtPrice allInEach in
  let formattedTotal := fmtPrice total in
  "- Sec " ++ section l ++ " Row " ++ row l ++ ", " ++ formattedEach
    ++ " each (" ++ formattedTotal ++ " total)".

Definition header (cfg : Config) : string :=
  ("🏀 Seats available for " ++ EVENT_NAME cfg ++ "!" ++ nl)
  ++ ("(checking " ++ PLATFORM_NAME cfg ++ " for " ++ String_of_nat (SEATS_TOGETHER cfg)
      ++ " seats together at " ++ fmtPrice (MAX_ALL_IN_PRICE_PER_SEAT cfg)
      ++ " each in sections similar to "
      ++ String.concat ", " (map RegExp_toString (SECTION_GROUP_NAMES cfg)) ++ ")").

Definition callout (cfg : Config) (lowestPrice : Q) : string :=
  nl ++ nl ++ "⭐ New lowest price on " ++ PLATFORM_NAME cfg ++ ": "
     ++ fmtPrice lowestPrice ++ nl.

Definition append_lines (message : string) (readout : list string) : string :=
  fold_left (fun acc line => acc ++ nl ++ line) readout message.

(** ** [check] (lines 87-214) *)

(** Lines 197-214: the readout lines, the throttle and the alert. *)
Definition notify (cfg : Config) (env : Env) (readout : list string)
           (g : Globals) (done : list Effect) : Tick :=
  let g := set_STATUS_MESSAGE (append_lines (STATUS_MESSAGE g) readout) g in
  if (Date_now_gate env - LAST_TEXT_SENT_AT g <? TEXT_MAX_FREQUENCY_MINS cfg * 60 * 1000)%Z
  then
    returns g (done ++ [console_log ("Text already sent within the last "
                                       ++ String_of_int (TEXT_MAX_FREQUENCY_MINS cfg)
                                       ++ " minutes.")])%list
  else
    let g := set_LAST_TEXT_SENT_AT (Date_now_stamp env) g in
    {| globals := g;
       effects := (done ++ [sendPushAlert "pushover" (STATUS_MESSAGE g)])%list;
       completion := if sendPushAlert_rejects env then Rejected else Resolved |}.

(** Lines 143-195: everything after the [try] statement up to the readout. *)
Definition after_try (cfg : Config) (env : Env) (g : Globals) (done : list Effect) : Tick :=
  let g := set_ERROR_COUNT 0 g in
  match AVAILABLE_SEATS g with
  | [] => returns g (done ++ [console_log "No seats found."])%list
  | first :: _ =>
      let readout := map (readout_line cfg) (AVAILABLE_SEATS g) in
      let g := set_STATUS_MESSAGE (header cfg) g in
      let lowestPrice := calculateTotalPrice first in
      match pricesSeen g with
      | [] =>
          let g := set_pricesSeen (pricesSeen g ++ [lowestPrice])%list g in
          notify cfg env readout g done
      | p :: ps =>
          let lowestPriceSeen := Math_min p ps in
          let lastPriceSeen := last ps p in
          let g := set_pricesSeen (pricesSeen g ++ [lowestPrice])%list g in
          match classify lowestPriceSeen lastPriceSeen lowestPrice with
          | NEW_LOW =>
              let g := set_STATUS_MESSAGE
                         (STATUS_MESSAGE g ++ callout cfg lowestPrice) g in
              notify cfg env readout g done
          | DECREASED =>
              returns g (done ++ [console_log ("🔻 " ++ PLATFORM_NAME cfg
                                    ++ " price decreased to " ++ fmtPrice lowestPrice)])%list
          | INCREASED =>
              returns g (done ++ [console_log ("🔺 " ++ PLATFORM_NAME cfg
                                    ++ " price increased to " ++ fmtPrice lowestPrice)])%list
          | UNCHANGED =>
              returns g (done ++ [console_log ("🔄 " ++ PLATFORM_NAME cfg
                                    ++ " Price unchanged at " ++ fmtPrice lowestPrice)])%list
          end
      end
  end.

(** Lines 88-90. *)
Definition reset (g : Globals) : Globals :=
  set_ERROR false (set_STATUS_MESSAGE "NO_SEATS" (set_AVAILABLE_SEATS [] g)).

(** Lines 132-141: the [catch] clause; the flag says whether it returned. *)
Definition on_catch (cfg : Config) (g : Globals) : Globals * bool :=
  let g := set_ERROR_COUNT (S (ERROR_COUNT g)) g in
  if (MIN_ERROR_COUNT cfg <=? ERROR_COUNT g)%nat
  then (set_ERROR true g, true)
  else (g, false).

Definition check (cfg : Config) (env : Env) (g : Globals) : Tick :=
  let g := reset g in
  match fetched env with
  | fetch_rejects => {| globals := g; effects := []; completion := Rejected |}
  | fetch_resolves response =>
      if try_throws env then
        let (g, returned) := on_catch cfg g in
        if returned then returns g [console_error_caught]
        else after_try cfg env g [console_error_caught]
      else
        match outputSchema_safeParse response with
        | None => returns g [console_log "error parsing response"; console_log_ZodError]
        | Some data =>
            let g := set_AVAILABLE_SEATS (select cfg data) g in
            after_try cfg env g []
        end
  end.

(** A run: the globals after a sequence of ticks, whatever each promise did. *)
Definition run (cfg : Config) (envs : list Env) (g : Globals) : Globals :=
  fold_left (fun g env => globals (check cfg env g)) envs g.

(** ** Vocabulary of the statements *)

(** The listings a tick assigns to [AVAILABLE_SEATS]: those the [try] body
    selected, none when the tick did not get that far. *)
Definition qualifying (cfg : Config) (env : Env) : list Listing :=
  match fetched env with
  | fetch_rejects => []
  | fetch_resolves response =>
      if try_throws env then []
      else match outputSchema_safeParse response with
           | Some data => select cfg data
           | None => []
           end
  end.

(** The price a tick appends to the history, if it appends one. *)
Definition recorded (cfg : Config) (env : Env) : list Q :=
  match qualifying cfg env with
  | [] => []
  | first :: _ => [calculateTotalPrice first]
  end.

(** The branch a tick takes from the globals [g], when it selected a listing. *)
Definition tick_trend (cfg : Config) (env : Env) (g : Globals) : option Trend :=
  match qualifying cfg env with
  | [] => None
  | first :: _ => Some (trend (pricesSeen g) (calculateTotalPrice first))
  end.

Definition has_qualifying (cfg : Config) (env : Env) : bool :=
  match qualifying cfg env with [] => false | _ :: _ => true end.

(** How a tick can fail. *)
Definition invalid_document (env : Env) : bool :=
  match fetched env with
  | fetch_resolves response =>
      negb (try_throws env)
      && match outputSchema_safeParse response with Some _ => false | None => true end
  | fetch_rejects => false
  end.

Definition thrown_in_try (env : Env) : bool :=
  match fetched env with
  | fetch_resolves _ => try_throws env
  | fetch_rejects => false
  end.

Definition transport_error (env : Env) : bool :=
  match fetched env with
  | fetch_rejects => true
  | fetch_resolves _ => false
  end.

Definition failed (env : Env) : bool :=
  transport_error env || thrown_in_try env || invalid_document env.

Definition is_alert (e : Effect) : bool :=
  match e with sendPushAlert _ _ => true | _ => false end.

(** The alerts a tick handed to the notifier. *)
Definition alerts (t : Tick) : list Effect := filter is_alert (effects t).

Definition throttle_text (cfg : Config) : string :=
  "Text already sent within the last " ++ String_of_int (TEXT_MAX_FREQUENCY_MINS cfg)
    ++ " minutes.".

Definition interval_ms (cfg : Config) : Z := (TEXT_MAX_FREQUENCY_MINS cfg * 60 * 1000)%Z.

(** What the caller sees of a tick that went through the throttle of lines
    202-214, for the globals [before] the tick. *)
Definition through_gate (cfg : Config) (env : Env) (before : Globals) (t : Tick) : Prop :=
  ((Date_now_gate env - LAST_TEXT_SENT_AT before < interval_ms cfg)%Z ->
     effects t = [console_log (throttle_text cfg)]
     /\ LAST_TEXT_SENT_AT (globals t) = LAST_TEXT_SENT_AT before)
  /\ ((interval_ms cfg <= Date_now_gate env - LAST_TEXT_SENT_AT before)%Z ->
     effects t = [sendPushAlert "pushover" (STATUS_MESSAGE (globals t))]
     /\ LAST_TEXT_SENT_AT (globals t) = Date_now_stamp env).

(** A pattern matches a subject that starts with its literal. *)
Definition matches (r : RegExp) (subject : string) : Prop :=
  match r with StartsWith lit => exists rest, subject = lit ++ rest end.

Definition is_min (m : Q) (history : list Q) : Prop :=
  In m history /\ Forall (fun x => m <= x) history.

Definition is_last (x : Q) (history : list Q) : Prop :=
  exists init, history = (init ++ [x])%list.

Definition cheaper_or_equal (a b : Listing) : Prop :=
  calculateTotalPrice a <= calculateTotalPrice b.

Definition priced (p : Q) (l : Listing) : bool := Qeq_bool (calculateTotalPrice l) p.

(** ** Sample documents and ticks *)

Definition listing_json (i sec grp rw : string) (cents : Q) (sizes : list Q) (n : nat) : JSON :=
  JObject [("price", JObject [("face_value", JNull); ("prefee", JNumber cents);
                              ("total", JNumber 0); ("sales_tax", JNumber 0)]);
           ("lots", JArray (map JNumber sizes));
           ("seats", JArray (repeat (JString "*") n));
           ("id", JString i); ("row", JString rw);
           ("section", JString sec); ("section_group", JString grp)].

(** The record [listing_json] validates to. *)
Definition listing_record (i sec grp rw : string) (cents : Q) (sizes : list Q) (n : nat)
  : Listing :=
  {| price := {| face_value := None; prefee := cents; total := 0; sales_tax := 0 |};
     lots := sizes; seats := repeat "*" n; id := i; row := rw;
     section := sec; section_group := grp |}.

Definition document (ls : list (string * JSON)) : JSON :=
  JObject [("display_groups", JArray []); ("listings", JObject ls)].

Definition tick_at (now : Z) (response : JSON) : Env :=
  {| fetched := fetch_resolves response; try_throws := false;
     Date_now_gate := now; Date_now_stamp := now; sendPushAlert_rejects := false |}.

Definition minutes (n : Z) : Z := (n * 60 * 1000)%Z.

(** One seat pair in section 101 at [cents] all in. *)
Definition one_offer (cents : Q) : JSON :=
  document [("a", listing_json "a" "101" "Lower" "5" cents [1; 2] 2)].

Definition offer (cents : Q) : Listing :=
  listing_record "a" "101" "Lower" "5" cents [1; 2] 2.

Definition four_offers : JSON :=
  document [("a", listing_json "a" "101" "Lower" "5" 30000 [1; 2] 2);
            ("b", listing_json "b" "PR3" "Premier" "1" 25000 [2] 3);
            ("c", listing_json "c" "201" "Upper" "1" 5000 [2] 3);
            ("d", listing_json "d" "115" "Lower" "9" 36000 [2] 3)].

(** The validated form of a sample document. *)
Definition parsed (response : JSON) : Output :=
  match outputSchema_safeParse response with
  | Some data => data
  | None => {| display_groups := []; listings := [] |}
  end.

Definition malformed : JSON := JObject [("listings", JArray [])].

Definition noon : Z := 1700000000000.

(** The source's configuration with a price cap of 1000 per seat. *)
Definition generous : Config := {|
  PLATFORM_NAME := PLATFORM_NAME gametime;
  EVENT_ID := EVENT_ID gametime;
  EVENT_NAME := EVENT_NAME gametime;
  SEATS_TOGETHER := SEATS_TOGETHER gametime;
  MAX_ALL_IN_PRICE_PER_SEAT := 1000;
  SECTIONS_REGEX := SECTIONS_REGEX gametime;
  SECTION_GROUP_NAMES := SECTION_GROUP_NAMES gametime;
  MAX_RETURN_LIST := MAX_RETURN_LIST gametime;
  MIN_ERROR_COUNT := MIN_ERROR_COUNT gametime;
  TEXT_MAX_FREQUENCY_MINS := TEXT_MAX_FREQUENCY_MINS gametime
|}.

(** The source's configuration with an error threshold of one. *)
Definition strict : Config := {|
  PLATFORM_NAME := PLATFORM_NAME gametime;
  EVENT_ID := EVENT_ID gametime;
  EVENT_NAME := EVENT_NAME gametime;
  SEATS_TOGETHER := SEATS_TOGETHER gametime;
  MAX_ALL_IN_PRICE_PER_SEAT := MAX_ALL_IN_PRICE_PER_SEAT gametime;
  SECTIONS_REGEX := SECTIONS_REGEX gametime;
  SECTION_GROUP_NAMES := SECTION_GROUP_NAMES gametime;
  MAX_RETURN_LIST := MAX_RETURN_LIST gametime;
  MIN_ERROR_COUNT := 1;
  TEXT_MAX_FREQUENCY_MINS := TEXT_MAX_FREQUENCY_MINS gametime
|}.

Definition offline : Env :=
  {| fetched := fetch_rejects; try_throws := false;
     Date_now_gate := noon; Date_now_stamp := noon; sendPushAlert_rejects := false |}.

Definition crashing : Env :=
  {| fetched := fetch_resolves four_offers; try_throws := true;
     Date_now_gate := noon; Date_now_stamp := noon; sendPushAlert_rejects := false |}.

(** ** JSON forms of validated data

    The object a listing record is read from when the document carries
    exactly the keys of the schema, and the document of a validated
    [Output]. *)

Definition listing_keys : list string :=
  ["price"; "lots"; "seats"; "id"; "row"; "section"; "section_group"].

Definition price_toJSON (p : Price) : JSON :=
  JObject [("face_value", match face_value p with Some q => JNumber q | None => JNull end);
           ("prefee", JNumber (prefee p));
           ("total", JNumber (total p));
           ("sales_tax", JNumber (sales_tax p))].

Definition listing_toJSON (l : Listing) : JSON :=
  JObject [("price", price_toJSON (price l));
           ("lots", JArray (map JNumber (lots l)));
           ("seats", JArray (map JString (seats l)));
           ("id", JString (id l));
           ("row", JString (row l));
           ("section", JString (section l));
           ("section_group", JString (section_group l))].

Definition output_toJSON (data : Output) : JSON :=
  JObject [("display_groups", JArray (display_groups data));
           ("listings",
            JObject (map (fun kl => (fst kl, listing_toJSON (snd kl))) (listings data)))].

(** * Properties *)

(** ** The definitions at sample inputs *)

Example fmtPrice_whole : fmtPrice 350 = "$350".
Proof. reflexivity. Qed.

Example fmtPrice_grouped : fmtPrice (123456789 # 100) = "$1,234,568".
Proof. reflexivity. Qed.

Example fmtPrice_half_up : fmtPrice (5 # 2) = "$3".
Proof. reflexivity. Qed.

Example fmtPrice_negative : fmtPrice (- 1000) = "-$1,000".
Proof. reflexivity. Qed.

Example safeParse_one_offer :
  outputSchema_safeParse (one_offer 30000)
  = Some {| display_groups := []; listings := [("a", offer 30000)] |}.
Proof. reflexivity. Qed.

Example safeParse_malformed : outputSchema_safeParse malformed = None.
Proof. reflexivity. Qed.

Example safeParse_missing_row :
  outputSchema_safeParse
    (document [("a", JObject [("price", JObject [("face_value", JNumber 100);
                                                  ("prefee", JNumber 1);
                                                  ("total", JNumber 2);
                                                  ("sales_tax", JNumber 3)]);
                              ("lots", JArray []); ("seats", JArray []);
                              ("id", JString "a"); ("section", JString "1");
                              ("section_group", JString "Loge")])])
  = None.
Proof. reflexivity. Qed.

Example select_four_offers :
  option_map (fun data => map id (select gametime data))
             (outputSchema_safeParse four_offers)
  = Some ["b"; "a"].
Proof. reflexivity. Qed.

Example sort_keeps_ties_in_order :
  map id (sort by_price [listing_record "x" "1" "" "" 200 [] 0;
                         listing_record "y" "1" "" "" 100 [] 0;
                         listing_record "z" "1" "" "" 200 [] 0;
                         listing_record "w" "1" "" "" 100 [] 0])
  = ["y"; "w"; "x"; "z"].
Proof. reflexivity. Qed.

Example header_gametime :
  header gametime
  = "🏀 Seats available for Lakers vs. Suns!" ++ nl
    ++ "(checking Gametime for 2 seats together at $350 each in sections similar to /^Premier/, /^Loge/, /^Baseline/)".
Proof. reflexivity. Qed.

(** ** Comparisons, patterns, membership *)

Lemma Qlt_bool_iff (x y : Q) : Qlt_bool x y = true <-> x < y.
Proof.
  unfold Qlt_bool. rewrite negb_true_iff. split.
  - intros H. apply Qnot_le_lt. intros Hle.
    apply Qle_bool_iff in Hle. congruence.
  - intros H. destruct (Qle_bool y x) eqn:E; [|reflexivity].
    apply Qle_bool_iff in E. exfalso. exact (Qlt_not_le _ _ H E).
Qed.

Lemma Qlt_bool_false_iff (x y : Q) : Qlt_bool x y = false <-> y <= x.
Proof.
  unfold Qlt_bool. rewrite negb_false_iff. apply Qle_bool_iff.
Qed.

Lemma prefix_append (p s : string) :
  String.prefix p s = true <-> exists rest, s = p ++ rest.
Proof.
  revert s. induction p as [|c p IH]; intros s.
  - split; [intros _; exists s; reflexivity | intros _; destruct s; reflexivity].
  - destruct s as [|d s]; simpl.
    + split; [discriminate | intros [rest H]; discriminate].
    + destruct (Ascii.ascii_dec c d) as [->|Hne].
      * rewrite IH. split; intros [rest H]; exists rest.
        -- now rewrite H.
        -- now injection H.
      * split; [discriminate | intros [rest H]; injection H; intros; congruence].
Qed.

Lemma test_matches (r : RegExp) (subject : string) :
  test r subject = true <-> matches r subject.
Proof. destruct r as [lit]. apply prefix_append. Qed.

Lemma some_matches (rs : list RegExp) (subject : string) :
  some (fun r => test r subject) rs = true
  <-> exists r, In r rs /\ matches r subject.
Proof.
  unfold some. rewrite existsb_exists.
  split; intros [r [Hin H]]; exists r; split; auto; now apply test_matches.
Qed.

Lemma includes_spec (xs : list Q) (x : Q) :
  includes xs x = true <-> exists n, In n xs /\ n == x.
Proof.
  unfold includes. rewrite existsb_exists.
  split; intros [n [Hin H]]; exists n; split; auto; now apply Qeq_bool_iff.
Qed.

(** ** The filter *)

Lemma qualifies_spec (cfg : Config) (l : Listing) :
  qualifies cfg l = true <->
  (SEATS_TOGETHER cfg <= length (seats l))%nat
  /\ (exists n, In n (lots l) /\ n == number_of_nat (SEATS_TOGETHER cfg))
  /\ ((exists r, In r (SECTIONS_REGEX cfg) /\ matches r (section l))
      \/ (exists r, In r (SECTION_GROUP_NAMES cfg) /\ matches r (section_group l)))
  /\ (prefee (price l) + total (price l) + sales_tax (price l)) / 100
     <= MAX_ALL_IN_PRICE_PER_SEAT cfg.
Proof.
  unfold qualifies.
  rewrite <- includes_spec, <- !some_matches.
  change ((prefee (price l) + total (price l) + sales_tax (price l)) / 100)
    with (calculateTotalPrice l).
  rewrite <- Qlt_bool_false_iff.
  destruct (length (seats l) <? SEATS_TOGETHER cfg)%nat eqn:Eseats.
  - apply Nat.ltb_lt in Eseats. split; [discriminate | intros [H _]; lia].
  - apply Nat.ltb_ge in Eseats.
    destruct (includes (lots l) (number_of_nat (SEATS_TOGETHER cfg))); simpl.
    + destruct (some (fun r => test r (section l)) (SECTIONS_REGEX cfg)),
               (some (fun r => test r (section_group l)) (SECTION_GROUP_NAMES cfg)),
               (Qlt_bool (MAX_ALL_IN_PRICE_PER_SEAT cfg) (calculateTotalPrice l));
        simpl; intuition congruence.
    + intuition congruence.
Qed.

(** C4.  Of the listings of a validated document, the filter keeps exactly
    those with at least [SEATS_TOGETHER] seat labels, with [SEATS_TOGETHER]
    among their lots, whose section matches one of [SECTIONS_REGEX] or whose
    section group matches one of [SECTION_GROUP_NAMES], and whose total price
    [(prefee + total + sales_tax) / 100] is at most
    [MAX_ALL_IN_PRICE_PER_SEAT]. *)
Theorem filter_keeps_exactly_the_qualifying (cfg : Config) (data : Output) (l : Listing) :
  In l (filter_listings cfg (Object_values (listings data)))
  <->
  In l (Object_values (listings data))
  /\ (SEATS_TOGETHER cfg <= length (seats l))%nat
  /\ (exists n, In n (lots l) /\ n == number_of_nat (SEATS_TOGETHER cfg))
  /\ ((exists r, In r (SECTIONS_REGEX cfg) /\ matches r (section l))
      \/ (exists r, In r (SECTION_GROUP_NAMES cfg) /\ matches r (section_group l)))
  /\ (prefee (price l) + total (price l) + sales_tax (price l)) / 100
     <= MAX_ALL_IN_PRICE_PER_SEAT cfg.
Proof.
  unfold filter_listings. rewrite filter_In, qualifies_spec. reflexivity.
Qed.

(** ** The sort and the truncation *)

Section Ranking.

Lemma by_price_positive (a b : Listing) :
  Qlt_bool 0 (by_price a b) = true <-> calculateTotalPrice b < calculateTotalPrice a.
Proof.
  rewrite Qlt_bool_iff. unfold by_price. cbv zeta.
  rewrite <- (Qlt_minus_iff (calculateTotalPrice b) (calculateTotalPrice a)).
  reflexivity.
Qed.

Lemma by_price_not_positive (a b : Listing) :
  Qlt_bool 0 (by_price a b) = false <-> cheaper_or_equal a b.
Proof.
  unfold cheaper_or_equal. split.
  - intros H. apply Qnot_lt_le. intros Hlt.
    apply by_price_positive in Hlt. congruence.
  - intros H. destruct (Qlt_bool 0 (by_price a b)) eqn:E; [|reflexivity].
    apply by_price_positive in E. exfalso. exact (Qlt_not_le _ _ E H).
Qed.

Lemma cheaper_or_equal_trans (a b c : Listing) :
  cheaper_or_equal a b -> cheaper_or_equal b c -> cheaper_or_equal a c.
Proof. unfold cheaper_or_equal. apply Qle_trans. Qed.

Lemma insert_In (x y : Listing) (ys : list Listing) :
  In y (insert by_price x ys) <-> y = x \/ In y ys.
Proof.
  induction ys as [|z ys IH]; simpl.
  - intuition.
  - destruct (Qlt_bool 0 (by_price x z)); simpl; [rewrite IH|]; intuition.
Qed.

Lemma insert_sorted (x : Listing) (ys : list Listing) :
  StronglySorted cheaper_or_equal ys ->
  StronglySorted cheaper_or_equal (insert by_price x ys).
Proof.
  induction 1 as [|z ys Hs IH Hz]; simpl.
  - constructor; constructor.
  - destruct (Qlt_bool 0 (by_price x z)) eqn:E.
    + constructor; [exact IH|].
      apply Forall_forall. intros y Hy. apply insert_In in Hy.
      destruct Hy as [->|Hy].
      * apply by_price_positive in E. unfold cheaper_or_equal. now apply Qlt_le_weak.
      * rewrite Forall_forall in Hz. now apply Hz.
    + apply by_price_not_positive in E.
      constructor; [now constructor|].
      constructor; [exact E|].
      eapply Forall_impl; [|exact Hz].
      intros y Hy. eapply cheaper_or_equal_trans; eauto.
Qed.

Lemma sort_sorted (xs : list Listing) :
  StronglySorted cheaper_or_equal (sort by_price xs).
Proof.
  induction xs as [|x xs IH]; simpl; [constructor | now apply insert_sorted].
Qed.

Lemma sort_In (xs : list Listing) (y : Listing) :
  In y (sort by_price xs) <-> In y xs.
Proof.
  induction xs as [|x xs IH]; simpl; [reflexivity|].
  rewrite insert_In, IH. intuition.
Qed.

Lemma sort_length (xs : list Listing) : length (sort by_price xs) = length xs.
Proof.
  induction xs as [|x xs IH]; simpl; [reflexivity|].
  rewrite <- IH. generalize (sort by_price xs). intros ys.
  induction ys as [|z ys IHys]; simpl; [reflexivity|].
  destruct (Qlt_bool 0 (by_price x z)); simpl; congruence.
Qed.

(** Stability: the listings of any one price keep their order. *)
Lemma insert_priced (p : Q) (x : Listing) (ys : list Listing) :
  filter (priced p) (insert by_price x ys) = filter (priced p) (x :: ys).
Proof.
  induction ys as [|z ys IH]; [reflexivity|].
  simpl insert. destruct (Qlt_bool 0 (by_price x z)) eqn:E; [|reflexivity].
  apply by_price_positive in E.
  change (filter (priced p) (z :: insert by_price x ys))
    with (if priced p z then z :: filter (priced p) (insert by_price x ys)
          else filter (priced p) (insert by_price x ys)).
  rewrite IH. simpl.
  destruct (priced p z) eqn:Ez, (priced p x) eqn:Ex; try reflexivity.
  unfold priced in Ez, Ex. apply Qeq_bool_iff in Ez, Ex.
  rewrite Ez, Ex in E. exfalso. exact (Qlt_irrefl _ E).
Qed.

Lemma sort_priced (p : Q) (xs : list Listing) :
  filter (priced p) (sort by_price xs) = filter (priced p) xs.
Proof.
  induction xs as [|x xs IH]; [reflexivity|].
  simpl sort. rewrite insert_priced. simpl. now rewrite IH.
Qed.

Lemma firstn_sorted (n : nat) (xs : list Listing) :
  StronglySorted cheaper_or_equal xs ->
  StronglySorted cheaper_or_equal (firstn n xs).
Proof.
  intros H. revert n. induction H as [|x xs Hs IH Hx]; intros [|n]; simpl;
    try constructor.
  - apply IH.
  - apply Forall_forall. intros y Hy. rewrite Forall_forall in Hx.
    apply Hx. rewrite <- (firstn_skipn n xs). apply in_or_app. now left.
Qed.

Lemma sorted_head_lowest (x : Listing) (xs : list Listing) (y : Listing) :
  StronglySorted cheaper_or_equal (x :: xs) -> In y (x :: xs) -> cheaper_or_equal x y.
Proof.
  intros H Hy. inversion H as [|? ? _ Hall]; subst.
  destruct Hy as [<-|Hy].
  - unfold cheaper_or_equal. apply Qle_refl.
  - rewrite Forall_forall in Hall. now apply Hall.
Qed.

Lemma firstn_cheapest (n : nat) (xs : list Listing) (kept dropped : Listing) :
  StronglySorted cheaper_or_equal xs ->
  In kept (firstn n xs) -> In dropped (skipn n xs) -> cheaper_or_equal kept dropped.
Proof.
  intros Hsorted. revert n.
  induction Hsorted as [|x xs Hs IH Hx]; intros [|n]; simpl; intros Hk Hd;
    try contradiction.
  destruct Hk as [<-|Hk].
  - rewrite Forall_forall in Hx. apply Hx.
    rewrite <- (firstn_skipn n xs). apply in_or_app. now right.
  - now apply (IH n).
Qed.

Lemma select_head_lowest (cfg : Config) (data : Output)
      (first : Listing) (rest : list Listing) (l : Listing) :
  select cfg data = first :: rest ->
  In l (filter_listings cfg (Object_values (listings data))) ->
  cheaper_or_equal first l.
Proof.
  unfold select, slice0. intros Hsel Hl.
  apply sort_In in Hl.
  pose proof (sort_sorted (filter_listings cfg (Object_values (listings data)))) as Hs.
  destruct (sort by_price _) as [|x xs]; [contradiction|].
  destruct (MAX_RETURN_LIST cfg) as [|n]; [discriminate|].
  simpl in Hsel. injection Hsel as -> _.
  now apply (sorted_head_lowest first xs).
Qed.

Lemma select_nonempty (cfg : Config) (data : Output) :
  (0 < MAX_RETURN_LIST cfg)%nat ->
  (select cfg data <> []
   <-> exists l, In l (filter_listings cfg (Object_values (listings data)))).
Proof.
  intros Hcap. unfold select, slice0.
  set (input := filter_listings cfg (Object_values (listings data))).
  pose proof (sort_length input) as Hlen.
  pose proof (sort_In input) as Hin.
  destruct (sort by_price input) as [|y ys].
  - rewrite firstn_nil. split; [intros H; now elim H|].
    intros [l Hl]. apply Hin in Hl. contradiction.
  - split.
    + intros _. exists y. apply Hin. now left.
    + intros _. destruct (MAX_RETURN_LIST cfg); [lia | discriminate].
Qed.

End Ranking.

(** C6.  The listings assigned to [AVAILABLE_SEATS] are in non-decreasing
    order of total price; listings of equal price stand in the order in
    which the document's mapping lists them (for every price, those kept
    are the first of that price in iteration order); and there are at most
    [MAX_RETURN_LIST] of them, the first of the sorted sequence. *)
Theorem select_sorted_stable_truncated (cfg : Config) (data : Output) :
  let input := filter_listings cfg (Object_values (listings data)) in
  let output := select cfg data in
  StronglySorted (fun a b => calculateTotalPrice a <= calculateTotalPrice b) output
  /\ (forall p, exists cut,
         filter (priced p) input = (filter (priced p) output ++ cut)%list)
  /\ (length output <= MAX_RETURN_LIST cfg)%nat
  /\ length output = Nat.min (MAX_RETURN_LIST cfg) (length input)
  /\ (forall kept dropped, In kept output -> In dropped input -> ~ In dropped output ->
        calculateTotalPrice kept <= calculateTotalPrice dropped).
Proof.
  intros input output. unfold output, select, slice0. fold input.
  pose proof (sort_sorted input) as Hsorted.
  repeat split.
  - now apply firstn_sorted.
  - intros p. exists (filter (priced p) (skipn (MAX_RETURN_LIST cfg) (sort by_price input))).
    rewrite <- filter_app, firstn_skipn. symmetry. apply sort_priced.
  - rewrite length_firstn. lia.
  - rewrite length_firstn, sort_length. reflexivity.
  - intros kept dropped Hk Hd Hnot.
    assert (Hd' : In dropped (skipn (MAX_RETURN_LIST cfg) (sort by_price input))).
    { apply sort_In in Hd. rewrite <- (firstn_skipn (MAX_RETURN_LIST cfg)) in Hd.
      apply in_app_or in Hd. tauto. }
    exact (firstn_cheapest _ _ kept dropped Hsorted Hk Hd').
Qed.

(** ** One tick *)

Section Tick.

Variable cfg : Config.

Lemma check_qualifying (env : Env) (g : Globals) (first : Listing) (rest : list Listing) :
  qualifying cfg env = first :: rest ->
  check cfg env g
  = after_try cfg env (set_AVAILABLE_SEATS (first :: rest) (reset g)) [].
Proof.
  unfold qualifying, check.
  destruct (fetched env) as [|response]; [discriminate|].
  destruct (try_throws env); [discriminate|].
  destruct (outputSchema_safeParse response) as [data|]; [|discriminate].
  now intros ->.
Qed.

Lemma notify_pricesSeen (env : Env) (readout : list string) (g : Globals)
      (done : list Effect) :
  pricesSeen (globals (notify cfg env readout g done)) = pricesSeen g.
Proof. unfold notify. cbn. now destruct (_ <? _)%Z. Qed.

Lemma after_try_pricesSeen (env : Env) (g : Globals) (done : list Effect) :
  pricesSeen (globals (after_try cfg env g done))
  = (pricesSeen g
     ++ match AVAILABLE_SEATS g with
        | [] => []
        | first :: _ => [calculateTotalPrice first]
        end)%list.
Proof.
  unfold after_try. cbn.
  destruct (AVAILABLE_SEATS g) as [|first rest]; cbn.
  - now rewrite app_nil_r.
  - destruct (pricesSeen g) as [|p ps]; cbn.
    + now rewrite notify_pricesSeen.
    + destruct (classify _ _ _); cbn; try reflexivity.
      now rewrite notify_pricesSeen.
Qed.

(** A tick appends to the history the price its first selected listing
    has, and nothing when it selected none. *)
Lemma check_pricesSeen (env : Env) (g : Globals) :
  pricesSeen (globals (check cfg env g)) = (pricesSeen g ++ recorded cfg env)%list.
Proof.
  unfold recorded, qualifying, check.
  destruct (fetched env) as [|response]; cbn -[after_try].
  - now rewrite app_nil_r.
  - destruct (try_throws env).
    + unfold on_catch. cbn -[after_try].
      destruct (_ <=? _)%nat; cbn -[after_try]; [now rewrite app_nil_r|].
      rewrite after_try_pricesSeen. reflexivity.
    + destruct (outputSchema_safeParse response) as [data|]; cbn -[after_try].
      * rewrite after_try_pricesSeen. reflexivity.
      * now rewrite app_nil_r.
Qed.

Lemma run_pricesSeen (envs : list Env) (g : Globals) :
  pricesSeen (run cfg envs g) = (pricesSeen g ++ flat_map (recorded cfg) envs)%list.
Proof.
  unfold run. revert g. induction envs as [|env envs IH]; intros g; simpl.
  - now rewrite app_nil_r.
  - rewrite IH, check_pricesSeen, <- app_assoc. reflexivity.
Qed.

Lemma recorded_count (envs : list Env) :
  length (flat_map (recorded cfg) envs) = length (filter (has_qualifying cfg) envs).
Proof.
  induction envs as [|env envs IH]; simpl; [reflexivity|].
  rewrite length_app, IH. unfold recorded, has_qualifying.
  now destruct (qualifying cfg env).
Qed.

Lemma qualifying_selected (env : Env) (l : Listing) :
  In l (qualifying cfg env) ->
  exists response data,
    fetched env = fetch_resolves response
    /\ outputSchema_safeParse response = Some data
    /\ qualifying cfg env = select cfg data.
Proof.
  unfold qualifying.
  destruct (fetched env) as [|response]; [contradiction|].
  destruct (try_throws env); [contradiction|].
  destruct (outputSchema_safeParse response) as [data|] eqn:E; [|contradiction].
  intros _. now exists response, data.
Qed.

End Tick.

(** C7.  The price history only grows by appending.  Every tick leaves the
    history it found as a prefix of the new one and appends exactly one
    entry, the lowest total price among the qualifying listings, when at
    least one listing qualified, and nothing otherwise (no qualifying
    listing, invalid document, exception, failed fetch); with a positive
    [MAX_RETURN_LIST] a valid document has a qualifying listing exactly
    when one of its listings passes the filter.  After any run the
    history is the old one followed by these entries, so its length never
    decreases and, starting from the empty history, equals the number of
    ticks that had a qualifying listing, which is at most the number of
    ticks. *)
Theorem price_history_append_only (cfg : Config) (envs : list Env) (env : Env) (g : Globals) :
  pricesSeen (globals (check cfg env g)) = (pricesSeen g ++ recorded cfg env)%list
  /\ (has_qualifying cfg env = false -> recorded cfg env = [])
  /\ (has_qualifying cfg env = true ->
      exists lowest, recorded cfg env = [lowest]
        /\ (exists l, In l (qualifying cfg env) /\ lowest = calculateTotalPrice l)
        /\ (forall response data l,
              fetched env = fetch_resolves response ->
              outputSchema_safeParse response = Some data ->
              In l (filter_listings cfg (Object_values (listings data))) ->
              lowest <= calculateTotalPrice l))
  /\ (forall response data,
        fetched env = fetch_resolves response ->
        try_throws env = false ->
        outputSchema_safeParse response = Some data ->
        (0 < MAX_RETURN_LIST cfg)%nat ->
        (has_qualifying cfg env = true
         <-> exists l, In l (filter_listings cfg (Object_values (listings data)))))
  /\ pricesSeen (run cfg envs g) = (pricesSeen g ++ flat_map (recorded cfg) envs)%list
  /\ (length (pricesSeen g) <= length (pricesSeen (run cfg envs g)))%nat
  /\ length (pricesSeen (run cfg envs initial)) = length (filter (has_qualifying cfg) envs)
  /\ (length (pricesSeen (run cfg envs initial)) <= length envs)%nat.
Proof.
  assert (Hrun := run_pricesSeen cfg envs).
  split; [apply check_pricesSeen|].
  split.
  { unfold has_qualifying, recorded. now destruct (qualifying cfg env). }
  split.
  { unfold has_qualifying, recorded.
    destruct (qualifying cfg env) as [|first rest] eqn:Eq; [discriminate|]. intros _.
    exists (calculateTotalPrice first). split; [reflexivity|]. split.
    - exists first. split; [now left | reflexivity].
    - intros response data l Hf Hp Hl.
      assert (Hsel : first :: rest = select cfg data).
      { rewrite <- Eq. unfold qualifying. rewrite Hf.
        destruct (try_throws env) eqn:Et.
        - unfold qualifying in Eq. rewrite Hf, Et in Eq. discriminate.
        - now rewrite Hp. }
      exact (select_head_lowest cfg data first rest l (eq_sym Hsel) Hl). }
  split.
  { intros response data Hf Ht Hp Hcap.
    rewrite <- (select_nonempty cfg data Hcap).
    unfold has_qualifying, qualifying. rewrite Hf, Ht, Hp.
    destruct (select cfg data); split; try discriminate; auto. }
  split; [apply Hrun|].
  split; [rewrite Hrun, length_app; lia|].
  split.
  - rewrite Hrun. simpl. apply recorded_count.
  - rewrite Hrun. simpl. rewrite recorded_count. apply filter_length_le.
Qed.

(** ** The trend *)

Section Trend.

Lemma Qmin_either (x y : Q) : Qmin x y = x \/ Qmin x y = y.
Proof. unfold Qmin, GenericMinMax.gmin. destruct (x ?= y)%Q; auto. Qed.

Lemma Math_min_In (p : Q) (ps : list Q) : In (Math_min p ps) (p :: ps).
Proof.
  unfold Math_min. revert p. induction ps as [|x ps IH]; intros p; simpl.
  - now left.
  - destruct (IH (Qmin p x)) as [H|H]; [|auto].
    rewrite <- H. destruct (Qmin_either p x) as [E|E]; rewrite E; auto.
Qed.

Lemma Math_min_le_start (p : Q) (ps : list Q) : Math_min p ps <= p.
Proof.
  unfold Math_min. revert p. induction ps as [|x ps IH]; intros p; simpl.
  - apply Qle_refl.
  - eapply Qle_trans; [apply IH | apply Q.le_min_l].
Qed.

Lemma Math_min_lower_bound (p : Q) (ps : list Q) :
  Forall (fun x => Math_min p ps <= x) (p :: ps).
Proof.
  constructor; [apply Math_min_le_start|].
  unfold Math_min. revert p. induction ps as [|x ps IH]; intros p; constructor.
  - simpl. eapply Qle_trans; [apply (Math_min_le_start (Qmin p x) ps) | apply Q.le_min_r].
  - apply IH.
Qed.

Lemma is_min_Math_min (m p : Q) (ps : list Q) :
  is_min m (p :: ps) -> m == Math_min p ps.
Proof.
  intros [Hin Hlow]. apply Qle_antisym.
  - rewrite Forall_forall in Hlow. apply Hlow, Math_min_In.
  - pose proof (Math_min_lower_bound p ps) as H.
    rewrite Forall_forall in H. now apply H.
Qed.

Lemma is_last_last (x p : Q) (ps : list Q) : is_last x (p :: ps) -> last ps p = x.
Proof.
  intros [init H].
  assert (Hl : last (p :: ps) p = x) by (rewrite H; apply last_last).
  rewrite <- Hl. destruct ps; reflexivity.
Qed.

Lemma is_min_le_last (m x : Q) (history : list Q) :
  is_min m history -> is_last x history -> m <= x.
Proof.
  intros [_ Hlow] [init ->]. rewrite Forall_forall in Hlow.
  apply Hlow, in_or_app. right. now left.
Qed.

Ltac settle_order :=
  repeat match goal with
         | |- _ /\ _ => split
         | |- _ <-> _ => split
         | |- _ -> _ => intro
         | H : _ /\ _ |- _ => destruct H
         end;
  try discriminate; try reflexivity; try lra.

Lemma classify_spec (m lastp cur : Q) :
  m <= lastp ->
  (classify m lastp cur = NEW_LOW <-> cur < m)
  /\ (classify m lastp cur = DECREASED <-> m <= cur /\ cur < lastp)
  /\ (classify m lastp cur = INCREASED <-> lastp < cur)
  /\ (classify m lastp cur = UNCHANGED <-> cur == lastp).
Proof.
  intros Hml. unfold classify.
  destruct (Qlt_bool cur m) eqn:E1;
    [apply Qlt_bool_iff in E1 | apply Qlt_bool_false_iff in E1];
    [settle_order|].
  destruct (Qlt_bool cur lastp) eqn:E2;
    [apply Qlt_bool_iff in E2 | apply Qlt_bool_false_iff in E2];
    [settle_order|].
  destruct (Qlt_bool lastp cur) eqn:E3;
    [apply Qlt_bool_iff in E3 | apply Qlt_bool_false_iff in E3];
    settle_order.
Qed.

Lemma classify_compat (m m' lastp cur : Q) :
  m == m' -> classify m lastp cur = classify m' lastp cur.
Proof.
  intros H. unfold classify, Qlt_bool. now rewrite H.
Qed.

(** The branch taken, in terms of the lowest and the last recorded price. *)
Lemma trend_spec (history : list Q) (m lastp cur : Q) :
  is_min m history -> is_last lastp history ->
  (trend history cur = NEW_LOW <-> cur < m)
  /\ (trend history cur = DECREASED <-> m <= cur /\ cur < lastp)
  /\ (trend history cur = INCREASED <-> lastp < cur)
  /\ (trend history cur = UNCHANGED <-> cur == lastp).
Proof.
  intros Hmin Hlast.
  pose proof (is_min_le_last _ _ _ Hmin Hlast) as Hle.
  destruct history as [|p ps].
  - destruct Hmin as [[] _].
  - unfold trend.
    rewrite (is_last_last _ _ _ Hlast).
    rewrite <- (classify_compat _ _ lastp cur (is_min_Math_min _ _ _ Hmin)).
    now apply classify_spec.
Qed.

End Trend.

(** ** The status text and the throttle *)

Section Gate.

Variable cfg : Config.

Lemma append_assoc (a b c : string) : (a ++ b) ++ c = a ++ (b ++ c).
Proof. induction a as [|x a IH]; simpl; [reflexivity | now rewrite IH]. Qed.

Lemma append_empty (a : string) : a ++ "" = a.
Proof. induction a as [|x a IH]; simpl; [reflexivity | now rewrite IH]. Qed.

Lemma concat_cons (x : string) (xs : list string) :
  String.concat "" (x :: xs) = x ++ String.concat "" xs.
Proof. destruct xs; simpl; [now rewrite append_empty | reflexivity]. Qed.

Lemma append_lines_concat (message : string) (readout : list string) :
  append_lines message readout
  = message ++ String.concat "" (map (fun line => nl ++ line) readout).
Proof.
  unfold append_lines. revert message.
  induction readout as [|line readout IH]; intros message.
  - simpl. now rewrite append_empty.
  - cbn [fold_left map]. rewrite IH, concat_cons, !append_assoc. reflexivity.
Qed.

Lemma notify_through_gate (env : Env) (readout : list string) (g before : Globals) :
  LAST_TEXT_SENT_AT g = LAST_TEXT_SENT_AT before ->
  through_gate cfg env before (notify cfg env readout g []).
Proof.
  intros Hlast. unfold through_gate, notify, interval_ms, throttle_text.
  cbn. rewrite Hlast.
  destruct (_ <? _)%Z eqn:E; [apply Z.ltb_lt in E | apply Z.ltb_ge in E]; cbn;
    split; intros H; try lia; auto.
Qed.

Lemma notify_STATUS_MESSAGE (env : Env) (readout : list string) (g : Globals)
      (done : list Effect) :
  STATUS_MESSAGE (globals (notify cfg env readout g done))
  = append_lines (STATUS_MESSAGE g) readout.
Proof. unfold notify. cbn. now destruct (_ <? _)%Z. Qed.

Lemma notify_counters (env : Env) (readout : list string) (g : Globals)
      (done : list Effect) :
  ERROR_COUNT (globals (notify cfg env readout g done)) = ERROR_COUNT g
  /\ ERROR (globals (notify cfg env readout g done)) = ERROR g.
Proof. unfold notify. cbn. now destruct (_ <? _)%Z. Qed.

Ltac step :=
  cbn -[notify header callout readout_line fmtPrice classify
        String.concat map nl append].

(** What a tick with a qualifying listing does, branch by branch. *)
Lemma check_by_trend (env : Env) (g : Globals) (first : Listing) (rest : list Listing) :
  qualifying cfg env = first :: rest ->
  let lowestPrice := calculateTotalPrice first in
  let t := check cfg env g in
  match trend (pricesSeen g) lowestPrice with
  | NEW_LOW =>
      through_gate cfg env g t
      /\ STATUS_MESSAGE (globals t)
         = (header cfg
            ++ match pricesSeen g with
               | [] => ""
               | _ :: _ => callout cfg lowestPrice
               end)
           ++ String.concat ""
                (map (fun l => nl ++ readout_line cfg l) (first :: rest))
  | DECREASED =>
      effects t = [console_log ("🔻 " ++ PLATFORM_NAME cfg ++ " price decreased to "
                                  ++ fmtPrice lowestPrice)]
      /\ completion t = Resolved
      /\ LAST_TEXT_SENT_AT (globals t) = LAST_TEXT_SENT_AT g
      /\ STATUS_MESSAGE (globals t) = header cfg
  | INCREASED =>
      effects t = [console_log ("🔺 " ++ PLATFORM_NAME cfg ++ " price increased to "
                                  ++ fmtPrice lowestPrice)]
      /\ completion t = Resolved
      /\ LAST_TEXT_SENT_AT (globals t) = LAST_TEXT_SENT_AT g
      /\ STATUS_MESSAGE (globals t) = header cfg
  | UNCHANGED =>
      effects t = [console_log ("🔄 " ++ PLATFORM_NAME cfg ++ " Price unchanged at "
                                  ++ fmtPrice lowestPrice)]
      /\ completion t = Resolved
      /\ LAST_TEXT_SENT_AT (globals t) = LAST_TEXT_SENT_AT g
      /\ STATUS_MESSAGE (globals t) = header cfg
  end.
Proof.
  intros Hq lowestPrice t. unfold t. rewrite (check_qualifying cfg env g first rest Hq).
  unfold after_try. step. fold lowestPrice.
  destruct (pricesSeen g) as [|p ps] eqn:Eh; step.
  - split.
    + now apply notify_through_gate.
    + rewrite notify_STATUS_MESSAGE, append_lines_concat. step.
      now rewrite append_empty, map_map.
  - destruct (classify (Math_min p ps) (last ps p) lowestPrice); step; auto.
    split.
    + now apply notify_through_gate.
    + rewrite notify_STATUS_MESSAGE, append_lines_concat. step.
      now rewrite map_map.
Qed.

Lemma check_counters_after_success (env : Env) (g : Globals) :
  failed env = false ->
  ERROR_COUNT (globals (check cfg env g)) = 0%nat
  /\ ERROR (globals (check cfg env g)) = false.
Proof.
  unfold failed, transport_error, thrown_in_try, invalid_document, check.
  destruct (fetched env) as [|response]; [discriminate|].
  destruct (try_throws env); [discriminate|].
  destruct (outputSchema_safeParse response) as [data|]; [|discriminate].
  intros _. unfold after_try. step.
  destruct (select cfg data) as [|first rest]; step; [auto|].
  destruct (pricesSeen g) as [|p ps]; step.
  - match goal with
    | |- context [notify _ _ ?r ?g' ?d] => destruct (notify_counters env r g' d) as [-> ->]
    end.
    auto.
  - destruct (classify _ _ _); step; auto.
    match goal with
    | |- context [notify _ _ ?r ?g' ?d] => destruct (notify_counters env r g' d) as [-> ->]
    end.
    auto.
Qed.

End Gate.

(** ** Failed ticks *)

Section Failures.

Variable cfg : Config.

Lemma check_transport_error (env : Env) (g : Globals) :
  transport_error env = true ->
  check cfg env g = {| globals := reset g; effects := []; completion := Rejected |}.
Proof.
  unfold transport_error, check. now destruct (fetched env).
Qed.

Lemma check_invalid_document (env : Env) (g : Globals) :
  invalid_document env = true ->
  check cfg env g
  = returns (reset g) [console_log "error parsing response"; console_log_ZodError].
Proof.
  unfold invalid_document, check.
  destruct (fetched env) as [|response]; [discriminate|].
  destruct (try_throws env); [discriminate|].
  now destruct (outputSchema_safeParse response).
Qed.

Lemma check_thrown_at_threshold (env : Env) (g : Globals) :
  thrown_in_try env = true ->
  (MIN_ERROR_COUNT cfg <= S (ERROR_COUNT g))%nat ->
  check cfg env g
  = returns (set_ERROR true (set_ERROR_COUNT (S (ERROR_COUNT g)) (reset g)))
            [console_error_caught].
Proof.
  unfold thrown_in_try, check, on_catch.
  destruct (fetched env) as [|response]; [discriminate|].
  intros -> Hmin. cbn -[Nat.leb].
  apply Nat.leb_le in Hmin. now rewrite Hmin.
Qed.

Lemma check_thrown_below_threshold (env : Env) (g : Globals) :
  thrown_in_try env = true ->
  (S (ERROR_COUNT g) < MIN_ERROR_COUNT cfg)%nat ->
  check cfg env g
  = returns (set_ERROR_COUNT 0 (set_ERROR_COUNT (S (ERROR_COUNT g)) (reset g)))
            [console_error_caught; console_log "No seats found."].
Proof.
  unfold thrown_in_try, check, on_catch.
  destruct (fetched env) as [|response]; [discriminate|].
  intros -> Hmin. cbn -[Nat.leb].
  apply Nat.leb_gt in Hmin. now rewrite Hmin.
Qed.

Lemma qualifying_not_failed (env : Env) (first : Listing) (rest : list Listing) :
  qualifying cfg env = first :: rest -> failed env = false.
Proof.
  unfold qualifying, failed, transport_error, thrown_in_try, invalid_document.
  destruct (fetched env) as [|response]; [discriminate|].
  destruct (try_throws env); [discriminate|].
  now destruct (outputSchema_safeParse response).
Qed.

Lemma failed_status (env : Env) (g : Globals) :
  failed env = true ->
  STATUS_MESSAGE (globals (check cfg env g)) = "NO_SEATS"
  /\ alerts (check cfg env g) = [].
Proof.
  unfold failed. intros H.
  destruct (transport_error env) eqn:Et.
  { now rewrite (check_transport_error env g Et). }
  destruct (thrown_in_try env) eqn:Ex.
  { destruct (Nat.le_gt_cases (MIN_ERROR_COUNT cfg) (S (ERROR_COUNT g))) as [Hle|Hgt].
    - now rewrite (check_thrown_at_threshold env g Ex Hle).
    - now rewrite (check_thrown_below_threshold env g Ex Hgt). }
  simpl in H. now rewrite (check_invalid_document env g H).
Qed.

End Failures.

(** ** Error handling *)

(** C1.  The code at a tick whose document fails validation: [check] logs
    the parse error and returns on line 100, before the counter of line 135,
    so [ERROR_COUNT] stays what it was instead of going up by one.  Four
    such ticks in a row leave it at 0 and the accessor at NO_SEATS. *)
Theorem invalid_document_is_not_counted :
  outputSchema_safeParse malformed = None
  /\ ERROR_COUNT initial = 0%nat
  /\ ERROR_COUNT (globals (check gametime (tick_at noon malformed) initial)) = 0%nat
  /\ effects (check gametime (tick_at noon malformed) initial)
     = [console_log "error parsing response"; console_log_ZodError]
  /\ ERROR_COUNT (run gametime (repeat (tick_at noon malformed) 4) initial) = 0%nat
  /\ getStatusMessage (run gametime (repeat (tick_at noon malformed) 4) initial)
     = "NO_SEATS".
Proof. repeat split; reflexivity. Qed.

(** C2, as amended.  A failed tick (failed fetch, exception in the [try]
    body, or invalid document) that leaves the error flag unset leaves the
    accessor at NO_SEATS, the text every tick starts from, whatever the
    status was before; when the [catch] clause brings the counter to
    [MIN_ERROR_COUNT] or above, the counter keeps that value and the
    accessor returns ERROR; one successful tick after it sets the counter
    to 0, clears the flag and makes the accessor return the current status
    message.  With the source's threshold of 4, after three ticks in a row
    with an invalid document the accessor returns NO_SEATS. *)
Theorem error_flag_hysteresis (cfg : Config) (g : Globals) (bad good : Env) :
  failed bad = true ->
  failed good = false ->
  let after_bad := globals (check cfg bad g) in
  let after_good := globals (check cfg good after_bad) in
  (ERROR after_bad = false -> getStatusMessage after_bad = "NO_SEATS")
  /\ (thrown_in_try bad = true ->
      (MIN_ERROR_COUNT cfg <= S (ERROR_COUNT g))%nat ->
      ERROR_COUNT after_bad = S (ERROR_COUNT g)
      /\ getStatusMessage after_bad = "ERROR")
  /\ (ERROR_COUNT after_good = 0%nat
      /\ ERROR after_good = false
      /\ getStatusMessage after_good = STATUS_MESSAGE after_good)
  /\ (forall e1 e2 e3 : Env,
        invalid_document e1 = true ->
        invalid_document e2 = true ->
        invalid_document e3 = true ->
        getStatusMessage (run gametime [e1; e2; e3] g) = "NO_SEATS").
Proof.
  intros Hbad Hgood after_bad after_good.
  split; [|split; [|split]].
  - intros He. unfold getStatusMessage. rewrite He.
    apply (failed_status cfg bad g Hbad).
  - intros Hx Hmin. unfold after_bad.
    now rewrite (check_thrown_at_threshold cfg bad g Hx Hmin).
  - destruct (check_counters_after_success cfg good after_bad Hgood) as [Hc He].
    unfold getStatusMessage. fold after_good in Hc, He. now rewrite He.
  - intros e1 e2 e3 H1 H2 H3. unfold run. simpl fold_left.
    now rewrite (check_invalid_document gametime e3 _ H3).
Qed.

(** C3.  The code at a tick whose fetch fails: the fetch is awaited on line
    92, before the [try] statement, so the failure is not caught; the
    promise of the tick rejects, nothing is logged and the counter stays
    what it was instead of going up by one.  Four such ticks in a row leave
    the counter at 0, the flag clear and the accessor at NO_SEATS. *)
Theorem failed_fetch_is_not_caught :
  transport_error offline = true
  /\ completion (check gametime offline initial) = Rejected
  /\ effects (check gametime offline initial) = []
  /\ ERROR_COUNT initial = 0%nat
  /\ ERROR_COUNT (globals (check gametime offline initial)) = 0%nat
  /\ ERROR_COUNT (run gametime (repeat offline 4) initial) = 0%nat
  /\ ERROR (run gametime (repeat offline 4) initial) = false
  /\ getStatusMessage (run gametime (repeat offline 4) initial) = "NO_SEATS".
Proof. repeat split; reflexivity. Qed.

(** ** Trend, throttle and status on a tick with qualifying listings *)

Lemma through_gate_cases (cfg : Config) (env : Env) (before : Globals) (t : Tick) :
  through_gate cfg env before t ->
  (effects t = [console_log (throttle_text cfg)]
   /\ alerts t = []
   /\ LAST_TEXT_SENT_AT (globals t) = LAST_TEXT_SENT_AT before
   /\ (Date_now_gate env - LAST_TEXT_SENT_AT before < interval_ms cfg)%Z)
  \/ (effects t = [sendPushAlert "pushover" (STATUS_MESSAGE (globals t))]
      /\ alerts t = [sendPushAlert "pushover" (STATUS_MESSAGE (globals t))]
      /\ LAST_TEXT_SENT_AT (globals t) = Date_now_stamp env
      /\ (interval_ms cfg <= Date_now_gate env - LAST_TEXT_SENT_AT before)%Z).
Proof.
  intros [Hlt Hge]. unfold alerts.
  destruct (Z.lt_ge_cases (Date_now_gate env - LAST_TEXT_SENT_AT before) (interval_ms cfg))
    as [H|H].
  - left. destruct (Hlt H) as [He Hl]. rewrite He. auto.
  - right. destruct (Hge H) as [He Hl]. rewrite He. auto.
Qed.

(** C5.  On a tick with qualifying listings and a non-empty history, let
    [m] be the minimum and [lastp] the final entry of the history as it
    stands before the tick appends to it, and [cur] the lowest qualifying
    price.  The branch is NEW_LOW iff [cur < m], DECREASED iff
    [m <= cur < lastp], INCREASED iff [cur > lastp], UNCHANGED iff
    [cur == lastp].  NEW_LOW goes on to the throttle of the notification;
    the other three log one line and return with no alert sent and the
    time of the last alert unchanged.  History 500, 480, 480 with a new
    lowest 470 is NEW_LOW; history 500, 480 with a new lowest 490 is
    INCREASED and sends nothing. *)
Theorem price_trend_classification
        (cfg : Config) (env : Env) (g : Globals) (first : Listing) (rest : list Listing)
        (m lastp : Q) :
  qualifying cfg env = first :: rest ->
  is_min m (pricesSeen g) ->
  is_last lastp (pricesSeen g) ->
  let cur := calculateTotalPrice first in
  let t := check cfg env g in
  (trend (pricesSeen g) cur = NEW_LOW <-> cur < m)
  /\ (trend (pricesSeen g) cur = DECREASED <-> m <= cur /\ cur < lastp)
  /\ (trend (pricesSeen g) cur = INCREASED <-> lastp < cur)
  /\ (trend (pricesSeen g) cur = UNCHANGED <-> cur == lastp)
  /\ (cur < m -> through_gate cfg env g t)
  /\ (m <= cur ->
      alerts t = []
      /\ completion t = Resolved
      /\ LAST_TEXT_SENT_AT (globals t) = LAST_TEXT_SENT_AT g
      /\ effects t
         = [console_log
              match trend (pricesSeen g) cur with
              | DECREASED =>
                  "🔻 " ++ PLATFORM_NAME cfg ++ " price decreased to " ++ fmtPrice cur
              | INCREASED =>
                  "🔺 " ++ PLATFORM_NAME cfg ++ " price increased to " ++ fmtPrice cur
              | _ =>
                  "🔄 " ++ PLATFORM_NAME cfg ++ " Price unchanged at " ++ fmtPrice cur
              end])
  /\ trend [500; 480; 480] 470 = NEW_LOW
  /\ trend [500; 480] 490 = INCREASED
  /\ alerts (check generous (tick_at noon (one_offer 49000))
                   (set_pricesSeen [500; 480] initial)) = [].
Proof.
  intros Hq Hmin Hlast cur t.
  destruct (trend_spec (pricesSeen g) m lastp cur Hmin Hlast) as (Hn & Hd & Hi & Hu).
  pose proof (check_by_trend cfg env g first rest Hq) as Hb.
  cbv zeta in Hb. fold cur t in Hb.
  repeat match goal with |- _ /\ _ => split end; try assumption; try reflexivity.
  - intros Hlt. apply Hn in Hlt. rewrite Hlt in Hb. apply Hb.
  - intros Hle. unfold alerts.
    destruct (trend (pricesSeen g) cur) eqn:Et.
    + exfalso. assert (Hlt : cur < m) by now apply Hn. lra.
    + destruct Hb as (He & Hc & Hl & _). rewrite He. auto.
    + destruct Hb as (He & Hc & Hl & _). rewrite He. auto.
    + destruct Hb as (He & Hc & Hl & _). rewrite He. auto.
Qed.

(** C9.  The first tick with a qualifying listing, the history being empty
    before it, records the lowest qualifying price as the first entry,
    takes the NEW_LOW branch and reaches the throttle of the notification:
    its one effect is the alert or, within the interval since the last
    alert, the throttle log line. *)
Theorem first_qualifying_tick_is_new_low
        (cfg : Config) (env : Env) (g : Globals) (first : Listing) (rest : list Listing) :
  pricesSeen g = [] ->
  qualifying cfg env = first :: rest ->
  let t := check cfg env g in
  pricesSeen (globals t) = [calculateTotalPrice first]
  /\ trend (pricesSeen g) (calculateTotalPrice first) = NEW_LOW
  /\ through_gate cfg env g t
  /\ (effects t = [sendPushAlert "pushover" (STATUS_MESSAGE (globals t))]
      \/ effects t = [console_log (throttle_text cfg)]).
Proof.
  intros Hempty Hq t.
  pose proof (check_by_trend cfg env g first rest Hq) as Hb.
  cbv zeta in Hb. fold t in Hb. rewrite Hempty in Hb. simpl trend in Hb.
  destruct Hb as [Hgate _].
  split; [|split; [|split]].
  - unfold t. rewrite check_pricesSeen, Hempty. unfold recorded. now rewrite Hq.
  - now rewrite Hempty.
  - exact Hgate.
  - destruct (through_gate_cases cfg env g t Hgate) as [(He & _)|(He & _)]; auto.
Qed.

(** C8, as amended.  On a NEW_LOW tick with qualifying listings: when the
    clock is within the interval since the last alert, no alert is sent and
    the time of the last alert is unchanged; otherwise the alert is sent
    and the time of the last alert becomes the clock reading taken then.
    Hence, when such a tick sent its alert and the next tick is again
    NEW_LOW with qualifying listings and runs within the interval since
    that alert, the second tick sends nothing and leaves the time of the
    last alert unchanged. *)
Theorem notification_throttle
        (cfg : Config) (g : Globals) (env1 env2 : Env)
        (first1 first2 : Listing) (rest1 rest2 : list Listing) :
  qualifying cfg env1 = first1 :: rest1 ->
  trend (pricesSeen g) (calculateTotalPrice first1) = NEW_LOW ->
  let t1 := check cfg env1 g in
  let g1 := globals t1 in
  let t2 := check cfg env2 g1 in
  ((Date_now_gate env1 - LAST_TEXT_SENT_AT g < interval_ms cfg)%Z ->
     alerts t1 = [] /\ LAST_TEXT_SENT_AT g1 = LAST_TEXT_SENT_AT g)
  /\ ((interval_ms cfg <= Date_now_gate env1 - LAST_TEXT_SENT_AT g)%Z ->
     alerts t1 = [sendPushAlert "pushover" (STATUS_MESSAGE g1)]
     /\ LAST_TEXT_SENT_AT g1 = Date_now_stamp env1)
  /\ (qualifying cfg env2 = first2 :: rest2 ->
      trend (pricesSeen g1) (calculateTotalPrice first2) = NEW_LOW ->
      alerts t1 <> [] ->
      (Date_now_gate env2 - Date_now_stamp env1 < interval_ms cfg)%Z ->
      alerts t2 = [] /\ LAST_TEXT_SENT_AT (globals t2) = LAST_TEXT_SENT_AT g1).
Proof.
  intros Hq1 Ht1 t1 g1 t2.
  pose proof (check_by_trend cfg env1 g first1 rest1 Hq1) as Hb1.
  cbv zeta in Hb1. rewrite Ht1 in Hb1. destruct Hb1 as [Hgate1 _].
  fold t1 in Hgate1.
  destruct (through_gate_cases cfg env1 g t1 Hgate1)
    as [(He & Ha & Hl & Hc)|(He & Ha & Hl & Hc)].
  - split; [|split].
    + auto.
    + intros H. lia.
    + intros _ _ Hsent. now elim Hsent.
  - split; [|split].
    + intros H. lia.
    + auto.
    + intros Hq2 Ht2 _ Hnear.
      pose proof (check_by_trend cfg env2 g1 first2 rest2 Hq2) as Hb2.
      cbv zeta in Hb2. rewrite Ht2 in Hb2. destruct Hb2 as [Hgate2 _].
      fold t2 in Hgate2.
      destruct (through_gate_cases cfg env2 g1 t2 Hgate2)
        as [(_ & Ha2 & Hl2 & _)|(_ & _ & _ & Hc2)].
      * auto.
      * unfold g1 in Hc2. rewrite Hl in Hc2. lia.
Qed.

(** C10, as amended.  On a NEW_LOW tick with qualifying listings the
    accessor returns the header naming the event, the platform and the
    search parameters, then, when the history was not empty before the
    tick, the callout with the new lowest price, then one line per listing
    in [AVAILABLE_SEATS] with its section, row, price per seat and price
    for [SEATS_TOGETHER] seats.  On the first tick with qualifying listings
    (empty history) there is no callout. *)
Theorem new_low_status_message
        (cfg : Config) (env : Env) (g : Globals) (first : Listing) (rest : list Listing) :
  qualifying cfg env = first :: rest ->
  trend (pricesSeen g) (calculateTotalPrice first) = NEW_LOW ->
  let after := globals (check cfg env g) in
  AVAILABLE_SEATS after = qualifying cfg env
  /\ getStatusMessage after
     = ((("🏀 Seats available for " ++ EVENT_NAME cfg ++ "!" ++ nl)
         ++ ("(checking " ++ PLATFORM_NAME cfg ++ " for "
             ++ String_of_nat (SEATS_TOGETHER cfg)
             ++ " seats together at " ++ fmtPrice (MAX_ALL_IN_PRICE_PER_SEAT cfg)
             ++ " each in sections similar to "
             ++ String.concat ", " (map RegExp_toString (SECTION_GROUP_NAMES cfg)) ++ ")"))
        ++ match pricesSeen g with
           | [] => ""
           | _ :: _ =>
               nl ++ nl ++ "⭐ New lowest price on " ++ PLATFORM_NAME cfg ++ ": "
                  ++ fmtPrice (calculateTotalPrice first) ++ nl
           end)
       ++ String.concat ""
            (map (fun l =>
                    nl ++ "- Sec " ++ section l ++ " Row " ++ row l ++ ", "
                       ++ fmtPrice (calculateTotalPrice l) ++ " each ("
                       ++ fmtPrice (calculateTotalPrice l * number_of_nat (SEATS_TOGETHER cfg))
                       ++ " total)")
                 (AVAILABLE_SEATS after)).
Proof.
  intros Hq Ht after.
  assert (Hseats : AVAILABLE_SEATS after = qualifying cfg env).
  { unfold after. rewrite (check_qualifying cfg env g first rest Hq), Hq.
    unfold after_try.
    cbn -[notify header callout readout_line fmtPrice classify String.concat map nl append].
    destruct (pricesSeen g) as [|p ps];
      cbn -[notify header callout readout_line fmtPrice classify String.concat map nl append].
    - unfold notify. cbn. now destruct (_ <? _)%Z.
    - destruct (classify _ _ _); try reflexivity.
      unfold notify. cbn. now destruct (_ <? _)%Z. }
  split; [exact Hseats|].
  destruct (check_counters_after_success cfg env g (qualifying_not_failed cfg env first rest Hq))
    as [_ He].
  unfold getStatusMessage. fold after in He. rewrite He, Hseats, Hq.
  pose proof (check_by_trend cfg env g first rest Hq) as Hb.
  cbv zeta in Hb. rewrite Ht in Hb. destruct Hb as [_ Hmsg].
  exact Hmsg.
Qed.

(** ** The statements at sample ticks *)

Lemma filter_keeps_exactly_the_qualifying_witness :
  In (offer 30000) (Object_values (listings (parsed (one_offer 30000))))
  /\ (SEATS_TOGETHER gametime <= length (seats (offer 30000)))%nat
  /\ matches (StartsWith "1") (section (offer 30000))
  /\ In (offer 30000)
        (filter_listings gametime (Object_values (listings (parsed (one_offer 30000))))).
Proof.
  assert (Hin : In (offer 30000) (Object_values (listings (parsed (one_offer 30000)))))
    by (left; reflexivity).
  assert (Hseats : (SEATS_TOGETHER gametime <= length (seats (offer 30000)))%nat)
    by (simpl; lia).
  assert (Hsec : matches (StartsWith "1") (section (offer 30000)))
    by (exists "01"; reflexivity).
  split; [exact Hin|]. split; [exact Hseats|]. split; [exact Hsec|].
  apply (proj2 (filter_keeps_exactly_the_qualifying gametime (parsed (one_offer 30000))
                                                   (offer 30000))).
  split; [exact Hin|]. split; [exact Hseats|].
  split; [exists 2; split; [right; left; reflexivity | reflexivity]|].
  split.
  - left. exists (StartsWith "1"). split; [right; left; reflexivity | exact Hsec].
  - unfold Qle; simpl; lia.
Defined.

Lemma select_sorted_stable_truncated_witness :
  map id (select gametime (parsed four_offers)) = ["b"; "a"]
  /\ StronglySorted (fun a b => calculateTotalPrice a <= calculateTotalPrice b)
                    (select gametime (parsed four_offers))
  /\ (length (select gametime (parsed four_offers)) <= MAX_RETURN_LIST gametime)%nat.
Proof.
  pose proof (select_sorted_stable_truncated gametime (parsed four_offers)) as H.
  cbv zeta in H. destruct H as (Hsorted & _ & Hcap & _).
  split; [reflexivity|]. split; [exact Hsorted | exact Hcap].
Defined.

Lemma error_flag_hysteresis_witness :
  failed crashing = true
  /\ failed (tick_at noon four_offers) = false
  /\ (MIN_ERROR_COUNT strict <= S (ERROR_COUNT initial))%nat
  /\ getStatusMessage (globals (check strict crashing initial)) = "ERROR"
  /\ ERROR_COUNT (globals (check strict (tick_at noon four_offers)
                                 (globals (check strict crashing initial)))) = 0%nat
  /\ getStatusMessage (globals (check gametime crashing initial)) = "NO_SEATS".
Proof.
  assert (Hbad : failed crashing = true) by reflexivity.
  assert (Hgood : failed (tick_at noon four_offers) = false) by reflexivity.
  assert (Hmin : (MIN_ERROR_COUNT strict <= S (ERROR_COUNT initial))%nat) by (simpl; lia).
  pose proof (error_flag_hysteresis strict initial crashing (tick_at noon four_offers)
                                    Hbad Hgood) as Hstrict.
  pose proof (error_flag_hysteresis gametime initial crashing (tick_at noon four_offers)
                                    Hbad Hgood) as Hsource.
  cbv zeta in Hstrict, Hsource.
  destruct Hstrict as (_ & Hhard & (Hzero & _) & _).
  destruct Hsource as (Hsoft & _).
  split; [exact Hbad|]. split; [exact Hgood|]. split; [exact Hmin|].
  split; [exact (proj2 (Hhard eq_refl Hmin))|].
  split; [exact Hzero | exact (Hsoft eq_refl)].
Defined.

Lemma price_trend_classification_witness :
  qualifying generous (tick_at noon (one_offer 49000)) = [offer 49000]
  /\ is_min 480 [500; 480]
  /\ is_last 480 [500; 480]
  /\ 480 < calculateTotalPrice (offer 49000)
  /\ trend [500; 480] (calculateTotalPrice (offer 49000)) = INCREASED
  /\ alerts (check generous (tick_at noon (one_offer 49000))
                   (set_pricesSeen [500; 480] initial)) = [].
Proof.
  assert (Hq : qualifying generous (tick_at noon (one_offer 49000)) = [offer 49000])
    by reflexivity.
  assert (Hmin : is_min 480 [500; 480]).
  { split; [right; left; reflexivity|].
    repeat constructor; unfold Qle; simpl; lia. }
  assert (Hlast : is_last 480 [500; 480]) by (exists [500]; reflexivity).
  assert (Hup : 480 < calculateTotalPrice (offer 49000)) by reflexivity.
  pose proof (price_trend_classification generous (tick_at noon (one_offer 49000))
                (set_pricesSeen [500; 480] initial) (offer 49000) [] 480 480
                Hq Hmin Hlast) as H.
  cbv zeta in H. destruct H as (_ & _ & Hi & _ & _ & Hquiet & _).
  split; [exact Hq|]. split; [exact Hmin|]. split; [exact Hlast|]. split; [exact Hup|].
  split; [exact (proj2 Hi Hup)|].
  apply Hquiet. unfold Qle; simpl; lia.
Defined.

Lemma price_history_append_only_witness :
  has_qualifying gametime (tick_at noon four_offers) = true
  /\ pricesSeen (run gametime [tick_at noon four_offers; tick_at noon malformed; offline]
                     initial)
     = [25000 / 100]
  /\ (exists lowest, recorded gametime (tick_at noon four_offers) = [lowest]).
Proof.
  pose proof (price_history_append_only gametime
                [tick_at noon four_offers; tick_at noon malformed; offline]
                (tick_at noon four_offers) initial) as H.
  destruct H as (_ & _ & Hone & _ & Hrun & _).
  split; [reflexivity|]. split.
  - rewrite Hrun. reflexivity.
  - destruct (Hone eq_refl) as (lowest & Hl & _). now exists lowest.
Defined.

Lemma notification_throttle_witness :
  qualifying gametime (tick_at noon (one_offer 30000)) = [offer 30000]
  /\ trend (pricesSeen initial) (calculateTotalPrice (offer 30000)) = NEW_LOW
  /\ qualifying gametime (tick_at (noon + minutes 10) (one_offer 29000)) = [offer 29000]
  /\ (Date_now_gate (tick_at (noon + minutes 10) (one_offer 29000))
      - Date_now_stamp (tick_at noon (one_offer 30000)) < interval_ms gametime)%Z
  /\ alerts (check gametime (tick_at noon (one_offer 30000)) initial) <> []
  /\ alerts (check gametime (tick_at (noon + minutes 10) (one_offer 29000))
                   (globals (check gametime (tick_at noon (one_offer 30000)) initial)))
     = []
  /\ LAST_TEXT_SENT_AT
       (globals (check gametime (tick_at (noon + minutes 10) (one_offer 29000))
                       (globals (check gametime (tick_at noon (one_offer 30000)) initial))))
     = noon.
Proof.
  assert (Hq1 : qualifying gametime (tick_at noon (one_offer 30000)) = [offer 30000])
    by reflexivity.
  assert (Ht1 : trend (pricesSeen initial) (calculateTotalPrice (offer 30000)) = NEW_LOW)
    by reflexivity.
  assert (Hq2 : qualifying gametime (tick_at (noon + minutes 10) (one_offer 29000))
                = [offer 29000]) by reflexivity.
  assert (Hnear : (Date_now_gate (tick_at (noon + minutes 10) (one_offer 29000))
                   - Date_now_stamp (tick_at noon (one_offer 30000))
                   < interval_ms gametime)%Z) by reflexivity.
  assert (Hsent : alerts (check gametime (tick_at noon (one_offer 30000)) initial) <> [])
    by discriminate.
  pose proof (notification_throttle gametime initial
                (tick_at noon (one_offer 30000))
                (tick_at (noon + minutes 10) (one_offer 29000))
                (offer 30000) (offer 29000) [] [] Hq1 Ht1) as H.
  cbv zeta in H. destruct H as (_ & _ & Hhence).
  destruct (Hhence Hq2 eq_refl Hsent Hnear) as [Hquiet Hkept].
  split; [exact Hq1|]. split; [exact Ht1|]. split; [exact Hq2|]. split; [exact Hnear|].
  split; [exact Hsent|]. split; [exact Hquiet|].
  rewrite Hkept. reflexivity.
Defined.

Lemma first_qualifying_tick_is_new_low_witness :
  pricesSeen initial = []
  /\ qualifying gametime (tick_at noon four_offers)
     = [listing_record "b" "PR3" "Premier" "1" 25000 [2] 3;
        listing_record "a" "101" "Lower" "5" 30000 [1; 2] 2]
  /\ pricesSeen (globals (check gametime (tick_at noon four_offers) initial))
     = [25000 / 100]
  /\ through_gate gametime (tick_at noon four_offers) initial
                  (check gametime (tick_at noon four_offers) initial).
Proof.
  assert (Hq : qualifying gametime (tick_at noon four_offers)
               = [listing_record "b" "PR3" "Premier" "1" 25000 [2] 3;
                  listing_record "a" "101" "Lower" "5" 30000 [1; 2] 2]) by reflexivity.
  pose proof (first_qualifying_tick_is_new_low gametime (tick_at noon four_offers) initial
                _ _ eq_refl Hq) as H.
  cbv zeta in H. destruct H as (Hrec & _ & Hgate & _).
  split; [reflexivity|]. split; [exact Hq|]. split; [exact Hrec | exact Hgate].
Defined.

Lemma new_low_status_message_witness :
  qualifying gametime (tick_at (noon + minutes 20) (one_offer 29000)) = [offer 29000]
  /\ trend [300] (calculateTotalPrice (offer 29000)) = NEW_LOW
  /\ getStatusMessage
       (globals (check gametime (tick_at (noon + minutes 20) (one_offer 29000))
                       (set_pricesSeen [300] initial)))
     = "🏀 Seats available for Lakers vs. Suns!" ++ nl
       ++ "(checking Gametime for 2 seats together at $350 each in sections similar to /^Premier/, /^Loge/, /^Baseline/)"
       ++ nl ++ nl ++ "⭐ New lowest price on Gametime: $290" ++ nl ++ nl
       ++ "- Sec 101 Row 5, $290 each ($580 total)".
Proof.
  assert (Hq : qualifying gametime (tick_at (noon + minutes 20) (one_offer 29000))
               = [offer 29000]) by reflexivity.
  assert (Ht : trend (pricesSeen (set_pricesSeen [300] initial))
                     (calculateTotalPrice (offer 29000)) = NEW_LOW) by reflexivity.
  pose proof (new_low_status_message gametime (tick_at (noon + minutes 20) (one_offer 29000))
                (set_pricesSeen [300] initial) (offer 29000) [] Hq Ht) as H.
  cbv zeta in H. destruct H as [_ Hmsg].
  split; [exact Hq | split; [exact Ht |]].
  rewrite Hmsg. reflexivity.
Defined.

(** ** Where the specification and the code part *)

(** C2, against the claim: a failed tick does not keep the last good
    status.  After a tick that found two listings the accessor returns the
    summary; one tick, or three in a row, with an invalid document later,
    the counter is below the threshold and the accessor returns NO_SEATS. *)
Lemma failed_tick_drops_the_last_status :
  let good := globals (check gametime (tick_at noon four_offers) initial) in
  let one := run gametime [tick_at noon malformed] good in
  let three := run gametime (repeat (tick_at noon malformed) 3) good in
  invalid_document (tick_at noon malformed) = true
  /\ (ERROR_COUNT one < MIN_ERROR_COUNT gametime)%nat
  /\ (ERROR_COUNT three < MIN_ERROR_COUNT gametime)%nat
  /\ getStatusMessage one = "NO_SEATS"
  /\ getStatusMessage three = "NO_SEATS"
  /\ getStatusMessage one <> getStatusMessage good
  /\ getStatusMessage three <> getStatusMessage good.
Proof.
  cbv zeta.
  split; [reflexivity|]. split; [vm_compute; lia|]. split; [vm_compute; lia|].
  split; [reflexivity|]. split; [reflexivity|].
  split; vm_compute; discriminate.
Qed.

(** C8, against the claim: two NEW_LOW ticks in a row six minutes apart,
    the first throttled by an alert sent fourteen minutes before it; the
    second is twenty minutes after that alert, sends its own and moves the
    time of the last alert. *)
Lemma second_new_low_within_interval_alerts :
  let alerted := globals (check gametime (tick_at noon (one_offer 30000)) initial) in
  let first := tick_at (noon + minutes 14) (one_offer 29000) in
  let second := tick_at (noon + minutes 20) (one_offer 28000) in
  let between := globals (check gametime first alerted) in
  tick_trend gametime first alerted = Some NEW_LOW
  /\ tick_trend gametime second between = Some NEW_LOW
  /\ (Date_now_gate second - Date_now_gate first < interval_ms gametime)%Z
  /\ alerts (check gametime first alerted) = []
  /\ alerts (check gametime second between) <> []
  /\ LAST_TEXT_SENT_AT (globals (check gametime second between))
     <> LAST_TEXT_SENT_AT between.
Proof.
  cbv zeta.
  split; [reflexivity|]. split; [reflexivity|]. split; [reflexivity|].
  split; [reflexivity|]. split; vm_compute; discriminate.
Qed.

(** C10, against the claim: the first tick with qualifying listings takes
    the NEW_LOW branch, and its status message has the header and the
    listing lines but no callout. *)
Lemma first_new_low_has_no_callout :
  let after := globals (check gametime (tick_at noon four_offers) initial) in
  tick_trend gametime (tick_at noon four_offers) initial = Some NEW_LOW
  /\ getStatusMessage after
     = "🏀 Seats available for Lakers vs. Suns!" ++ nl
       ++ "(checking Gametime for 2 seats together at $350 each in sections similar to /^Premier/, /^Loge/, /^Baseline/)"
       ++ nl ++ "- Sec PR3 Row 1, $250 each ($500 total)"
       ++ nl ++ "- Sec 101 Row 5, $300 each ($600 total)"
  /\ index 0 "New lowest price" (getStatusMessage after) = None
  /\ index 0 "⭐" (getStatusMessage after) = None.
Proof. cbv zeta. repeat split; reflexivity. Qed.

(** * Further properties of the code *)

(** ** The schema (lines 32-57) *)

Section Schema.

Lemma traverse_Forall2 {A B : Type} (f : A -> option B) (xs : list A) (ys : list B) :
  traverse f xs = Some ys <-> Forall2 (fun x y => f x = Some y) xs ys.
Proof.
  revert ys. induction xs as [|x xs IH]; intros ys; simpl.
  - split.
    + intros H. injection H as <-. constructor.
    + intros H. now inversion H.
  - destruct (f x) as [y|] eqn:Ex; simpl.
    + destruct (traverse f xs) as [ys'|] eqn:Et; simpl.
      * split.
        -- intros H. injection H as <-. constructor; [exact Ex | now apply IH].
        -- intros H. inversion H as [|? y0 ? ys0 Hy Hys]; subst.
           assert (y0 = y) by congruence. subst y0.
           apply IH in Hys. now injection Hys as ->.
      * split; [discriminate|].
        intros H. inversion H as [|? y0 ? ys0 Hy Hys]; subst.
        apply IH in Hys. discriminate.
    + split; [discriminate|].
      intros H. inversion H; subst. congruence.
Qed.

Lemma traverse_None {A B : Type} (f : A -> option B) (xs : list A) (x : A) :
  In x xs -> f x = None -> traverse f xs = None.
Proof.
  induction xs as [|y xs IH]; simpl; [contradiction|].
  intros [->|Hin] Hx.
  - now rewrite Hx.
  - destruct (f y); simpl; [|reflexivity]. now rewrite (IH Hin Hx).
Qed.

Lemma traverse_entries {A : Type} (p : JSON -> option A)
      (ls : list (string * JSON)) (pairs : list (string * A)) :
  traverse (fun kv => a <- p (snd kv);; Some (fst kv, a)) ls = Some pairs
  <-> exists values,
        Forall2 (fun kv v => p (snd kv) = Some v) ls values
        /\ pairs = combine (map fst ls) values.
Proof.
  rewrite traverse_Forall2. split.
  - intros H. induction H as [|kv kl ls kls Hkv _ IH].
    + exists []. split; [constructor | reflexivity].
    + destruct IH as (values & Hall & ->).
      destruct (p (snd kv)) as [v|] eqn:Ev; [|discriminate].
      simpl in Hkv. injection Hkv as <-.
      exists (v :: values). split; [now constructor | reflexivity].
  - intros (values & Hall & ->).
    induction Hall as [|kv v ls values Hv _ IH]; simpl; constructor; [|exact IH].
    now rewrite Hv.
Qed.

Lemma prop_skip (k k' : string) (v : JSON) (pre post : list (string * JSON)) :
  k <> k' -> prop k (pre ++ (k', v) :: post)%list = prop k (pre ++ post)%list.
Proof.
  intros Hne. induction pre as [|[k0 v0] pre IH]; simpl.
  - destruct (String.eqb k k') eqn:E; [|reflexivity].
    apply String.eqb_eq in E. contradiction.
  - now rewrite IH.
Qed.

Lemma field_skip {A : Type} (k k' : string) (p : JSON -> option A) (v : JSON)
      (pre post : list (string * JSON)) :
  k <> k' -> z.field k p (pre ++ (k', v) :: post)%list = z.field k p (pre ++ post)%list.
Proof. intros Hne. unfold z.field. now rewrite prop_skip. Qed.

Lemma traverse_map_Some {A B : Type} (f : A -> option B) (g : B -> A) (ys : list B) :
  (forall y, f (g y) = Some y) -> traverse f (map g ys) = Some ys.
Proof.
  intros H. induction ys as [|y ys IH]; simpl; [reflexivity|].
  now rewrite H, IH.
Qed.

Lemma listingObj_listing_toJSON (l : Listing) : listingObj (listing_toJSON l) = Some l.
Proof.
  destruct l as [[fv pf tt tx] ls ss i r s g].
  unfold listing_toJSON, listingObj, z.field. cbn [prop String.eqb Ascii.eqb Bool.eqb bind].
  unfold priceObj, price_toJSON, z.field.
  cbn [prop String.eqb Ascii.eqb Bool.eqb bind price face_value prefee total sales_tax
       lots seats id row section section_group z.number z.string z.array].
  assert (Hfv : z.nullable z.number
                  match fv with Some q => JNumber q | None => JNull end = Some fv)
    by now destruct fv.
  rewrite Hfv. cbn [bind].
  rewrite (traverse_map_Some z.number JNumber ls) by reflexivity.
  rewrite (traverse_map_Some z.string JString ss) by reflexivity.
  reflexivity.
Qed.

End Schema.

(** X1.  A document validates exactly when it is an object whose
    [display_groups] is an array and whose [listings] is an object every
    value of which validates as a listing, whatever its key; the validated
    mapping then has the document's keys other than [__proto__], in the
    document's order, each with the validated form of its value. *)
Theorem safeParse_validates_every_listing (o : list (string * JSON)) (data : Output) :
  outputSchema_safeParse (JObject o) = Some data
  <->
  exists ls validated,
    prop "display_groups" o = Some (JArray (display_groups data))
    /\ prop "listings" o = Some (JObject ls)
    /\ Forall2 (fun kv l => listingObj (snd kv) = Some l) ls validated
    /\ listings data
       = filter (fun kl => negb (String.eqb (fst kl) "__proto__"))
                (combine (map fst ls) validated).
Proof.
  unfold outputSchema_safeParse, z.field, z.array, z.record, z.any, z.mergeObjectSync.
  split.
  - destruct (prop "display_groups" o) as [[| | | |dg|]|]; try discriminate. simpl.
    assert (Hdg : traverse (fun j => Some j) dg = Some dg).
    { clear. induction dg as [|j dg IH]; simpl; [reflexivity | now rewrite IH]. }
    rewrite Hdg. simpl.
    destruct (prop "listings" o) as [[| | | | |ls]|]; try discriminate. simpl.
    destruct (traverse _ ls) as [pairs|] eqn:Et; try discriminate. simpl.
    intros H. injection H as <-. simpl.
    apply traverse_entries in Et. destruct Et as (validated & Hall & ->).
    exists ls, validated. repeat split; assumption.
  - intros (ls & validated & Hdg & Hls & Hall & Hkept). rewrite Hdg, Hls. simpl.
    assert (Hd : traverse (fun j => Some j) (display_groups data)
                 = Some (display_groups data)).
    { generalize (display_groups data). intros dg.
      induction dg as [|j dg IH]; simpl; [reflexivity | now rewrite IH]. }
    rewrite Hd. simpl.
    assert (Ht : traverse (fun kv => a <- listingObj (snd kv);; Some (fst kv, a)) ls
                 = Some (combine (map fst ls) validated)).
    { apply traverse_entries. now exists validated. }
    rewrite Ht. simpl. rewrite <- Hkept. now destruct data.
Qed.

(** X2.  One listing that does not validate makes the whole document fail,
    whatever the other listings are. *)
Theorem safeParse_rejects_on_one_bad_listing
        (o ls : list (string * JSON)) (key : string) (bad : JSON) :
  prop "listings" o = Some (JObject ls) ->
  In (key, bad) ls ->
  listingObj bad = None ->
  outputSchema_safeParse (JObject o) = None.
Proof.
  intros Hls Hin Hbad.
  unfold outputSchema_safeParse, z.field, z.record. rewrite Hls.
  destruct (prop "display_groups" o) as [dgj|]; [|reflexivity]. simpl.
  destruct (z.array z.any dgj); [|reflexivity]. simpl.
  rewrite (traverse_None _ ls (key, bad) Hin); [reflexivity|].
  simpl. now rewrite Hbad.
Qed.

(** X3.  A property of a listing object under a key the schema does not
    name is ignored: the listing validates to the same record, or fails the
    same way, with or without it. *)
Theorem listingObj_ignores_unknown_keys
        (pre post : list (string * JSON)) (key : string) (value : JSON) :
  ~ In key listing_keys ->
  listingObj (JObject (pre ++ (key, value) :: post)) = listingObj (JObject (pre ++ post)).
Proof.
  intros Hnew. unfold listing_keys in Hnew. simpl in Hnew.
  unfold listingObj.
  rewrite !field_skip; [reflexivity| | | | | | |]; intros E; apply Hnew; rewrite E; tauto.
Qed.

(** X4.  Validation gives back every validated document from its JSON
    form: order and every field of every listing, a null face value
    included, under every key other than [__proto__]; so a document written
    out from data without that key validates to exactly that data. *)
Theorem safeParse_output_toJSON (data : Output) :
  outputSchema_safeParse (output_toJSON data)
  = Some {| display_groups := display_groups data;
            listings := filter (fun kl => negb (String.eqb (fst kl) "__proto__"))
                               (listings data) |}
  /\ (~ In "__proto__" (map fst (listings data)) ->
      outputSchema_safeParse (output_toJSON data) = Some data).
Proof.
  assert (Hparse : outputSchema_safeParse (output_toJSON data)
                   = Some {| display_groups := display_groups data;
                             listings := z.mergeObjectSync (listings data) |}).
  { unfold output_toJSON, outputSchema_safeParse, z.field.
    cbn [prop String.eqb Ascii.eqb Bool.eqb bind z.array z.record z.any].
    assert (Hd : traverse z.any (display_groups data) = Some (display_groups data)).
    { generalize (display_groups data). intros dg.
      induction dg as [|j dg IH]; simpl; [reflexivity | unfold z.any in *; now rewrite IH]. }
    rewrite Hd. cbn [bind].
    rewrite (traverse_map_Some
               (fun kv => a <- listingObj (snd kv);; Some (fst kv, a))
               (fun kl => (fst kl, listing_toJSON (snd kl)))).
    - reflexivity.
    - intros [k l]. cbn [fst snd]. now rewrite listingObj_listing_toJSON. }
  split; [exact Hparse|].
  intros Hnone. rewrite Hparse. unfold z.mergeObjectSync.
  assert (Hall : filter (fun kl : string * Listing => negb (String.eqb (fst kl) "__proto__"))
                        (listings data) = listings data).
  { revert Hnone. generalize (listings data). intros kls.
    induction kls as [|[k l] kls IH]; simpl; intros Hnone; [reflexivity|].
    destruct (String.eqb k "__proto__") eqn:E; simpl.
    - apply String.eqb_eq in E. exfalso. apply Hnone. left. now symmetry.
    - rewrite IH; [reflexivity|]. intros H. apply Hnone. now right. }
  rewrite Hall. now destruct data.
Qed.

(** ** The sort (lines 126-131) *)

Section StableOrder.

Lemma priced_self (l : Listing) : priced (calculateTotalPrice l) l = true.
Proof. unfold priced. apply Qeq_bool_iff. reflexivity. Qed.

Lemma In_priced (l : Listing) (xs : list Listing) :
  In l xs -> In l (filter (priced (calculateTotalPrice l)) xs).
Proof. intros H. apply filter_In. split; [exact H | apply priced_self]. Qed.

(** Two lists sorted by price that agree, price by price, on the listings
    of that price in order, are the same list. *)
Lemma sorted_stable_unique (xs ys : list Listing) :
  StronglySorted cheaper_or_equal xs ->
  StronglySorted cheaper_or_equal ys ->
  (forall p, filter (priced p) xs = filter (priced p) ys) ->
  xs = ys.
Proof.
  intros Hxs. revert ys.
  induction Hxs as [|x xs Hs IH Hx]; intros ys Hys Hsame.
  - destruct ys as [|y ys]; [reflexivity|].
    specialize (Hsame (calculateTotalPrice y)). simpl in Hsame.
    rewrite priced_self in Hsame. discriminate.
  - destruct Hys as [|y ys Hys Hy].
    + specialize (Hsame (calculateTotalPrice x)). simpl in Hsame.
      rewrite priced_self in Hsame. discriminate.
    + assert (Hxy : x = y).
      { pose proof (Hsame (calculateTotalPrice x)) as Hpx. simpl in Hpx.
        rewrite priced_self in Hpx.
        destruct (priced (calculateTotalPrice x) y) eqn:Ey.
        - now injection Hpx.
        - exfalso.
          assert (Hin_x : In x ys).
          { assert (H : In x (filter (priced (calculateTotalPrice x)) ys))
              by (rewrite <- Hpx; now left).
            now apply filter_In in H. }
          pose proof (Hsame (calculateTotalPrice y)) as Hpy. simpl in Hpy.
          rewrite priced_self in Hpy.
          assert (Hin_y : In y (x :: xs)).
          { assert (H : In y (filter (priced (calculateTotalPrice y)) (x :: xs))).
            { simpl. rewrite Hpy. now left. }
            now apply filter_In in H. }
          rewrite Forall_forall in Hx, Hy.
          assert (Hyx : cheaper_or_equal y x) by now apply Hy.
          assert (Hxy : cheaper_or_equal x y).
          { destruct Hin_y as [->|Hin_y]; [apply Qle_refl | now apply Hx]. }
          unfold priced in Ey. apply Qeq_bool_neq in Ey. apply Ey.
          apply Qle_antisym; assumption. }
      subst y. f_equal. apply IH; [exact Hys|].
      intros p. specialize (Hsame p). simpl in Hsame.
      destruct (priced p x); [now injection Hsame | exact Hsame].
Qed.

Lemma insert_Permutation (x : Listing) (ys : list Listing) :
  Permutation (insert by_price x ys) (x :: ys).
Proof.
  induction ys as [|y ys IH]; simpl; [reflexivity|].
  destruct (Qlt_bool 0 (by_price x y)); [|reflexivity].
  rewrite IH. apply perm_swap.
Qed.

Lemma sort_Permutation (xs : list Listing) : Permutation (sort by_price xs) xs.
Proof.
  induction xs as [|x xs IH]; simpl; [reflexivity|].
  rewrite insert_Permutation. now constructor.
Qed.

End StableOrder.

(** X5.  The order of the sorted listings is fixed by the two facts a
    stable sort guarantees: any arrangement that is non-decreasing in total
    price and keeps, for every price, the listings of that price in their
    input order is the arrangement the sort returns. *)
Theorem stable_sort_is_unique (input arranged : list Listing) :
  StronglySorted (fun a b => calculateTotalPrice a <= calculateTotalPrice b) arranged ->
  (forall p, filter (priced p) arranged = filter (priced p) input) ->
  arranged = sort by_price input.
Proof.
  intros Hsorted Hstable.
  apply sorted_stable_unique; [exact Hsorted | apply sort_sorted|].
  intros p. now rewrite Hstable, sort_priced.
Qed.

(** X6.  Sorting loses and duplicates nothing, and when no more than
    [MAX_RETURN_LIST] listings pass the filter the truncation drops none:
    [AVAILABLE_SEATS] is then a rearrangement of all of them. *)
Theorem select_keeps_all_under_the_cap (cfg : Config) (data : Output) :
  (length (filter_listings cfg (Object_values (listings data))) <= MAX_RETURN_LIST cfg)%nat ->
  Permutation (select cfg data) (filter_listings cfg (Object_values (listings data)))
  /\ forall l, In l (select cfg data)
               <-> In l (Object_values (listings data)) /\ qualifies cfg l = true.
Proof.
  intros Hcap. unfold select, slice0.
  set (input := filter_listings cfg (Object_values (listings data))) in *.
  assert (Hall : firstn (MAX_RETURN_LIST cfg) (sort by_price input) = sort by_price input).
  { apply firstn_all2. now rewrite sort_length. }
  rewrite Hall. split; [apply sort_Permutation|].
  intros l. rewrite sort_In. unfold input, filter_listings. apply filter_In.
Qed.

(** ** The globals after a tick (lines 87-214) *)

Section AfterTick.

Variable cfg : Config.

Ltac walk :=
  cbn -[notify header callout readout_line fmtPrice classify
        String.concat map nl append select].

Lemma notify_AVAILABLE_SEATS (env : Env) (readout : list string) (g : Globals)
      (done : list Effect) :
  AVAILABLE_SEATS (globals (notify cfg env readout g done)) = AVAILABLE_SEATS g.
Proof. unfold notify. cbn. now destruct (_ <? _)%Z. Qed.

Lemma after_try_AVAILABLE_SEATS (env : Env) (g : Globals) (done : list Effect) :
  AVAILABLE_SEATS (globals (after_try cfg env g done)) = AVAILABLE_SEATS g.
Proof.
  unfold after_try. walk.
  destruct (AVAILABLE_SEATS g) as [|first rest] eqn:Ea; walk; [exact Ea|].
  destruct (pricesSeen g) as [|p ps]; walk.
  - rewrite notify_AVAILABLE_SEATS. exact Ea.
  - destruct (classify _ _ _); walk; try exact Ea.
    rewrite notify_AVAILABLE_SEATS. exact Ea.
Qed.

Lemma check_AVAILABLE_SEATS (env : Env) (g : Globals) :
  AVAILABLE_SEATS (globals (check cfg env g)) = qualifying cfg env.
Proof.
  unfold check, qualifying.
  destruct (fetched env) as [|response]; [reflexivity|].
  destruct (try_throws env).
  - unfold on_catch. cbn -[after_try Nat.leb].
    destruct (_ <=? _)%nat; [reflexivity|].
    now rewrite after_try_AVAILABLE_SEATS.
  - destruct (outputSchema_safeParse response) as [data|]; [|reflexivity].
    now rewrite after_try_AVAILABLE_SEATS.
Qed.

Lemma check_no_seats (env : Env) (g : Globals) :
  failed env = false ->
  qualifying cfg env = [] ->
  check cfg env g
  = returns (set_ERROR_COUNT 0 (reset g)) [console_log "No seats found."].
Proof.
  unfold failed, transport_error, thrown_in_try, invalid_document, qualifying, check.
  destruct (fetched env) as [|response]; [discriminate|].
  destruct (try_throws env); [discriminate|].
  destruct (outputSchema_safeParse response) as [data|]; [|discriminate].
  intros _ Hnone. rewrite Hnone. reflexivity.
Qed.


Lemma select_In_filter (data : Output) (l : Listing) :
  In l (select cfg data) ->
  In l (filter_listings cfg (Object_values (listings data))).
Proof.
  unfold select, slice0. intros H. apply sort_In.
  rewrite <- (firstn_skipn (MAX_RETURN_LIST cfg)). apply in_or_app. now left.
Qed.

Lemma qualifying_qualifies (env : Env) (l : Listing) :
  In l (qualifying cfg env) -> qualifies cfg l = true.
Proof.
  intros Hin. destruct (qualifying_selected cfg env l Hin) as (response & data & _ & _ & Hq).
  rewrite Hq in Hin. apply select_In_filter in Hin.
  unfold filter_listings in Hin. now apply filter_In in Hin.
Qed.


Lemma header_is_not_NO_SEATS (rest : string) : header cfg ++ rest <> "NO_SEATS".
Proof. unfold header. simpl. discriminate. Qed.

Lemma check_LAST_when_quiet (env : Env) (g : Globals) :
  alerts (check cfg env g) = [] ->
  LAST_TEXT_SENT_AT (globals (check cfg env g)) = LAST_TEXT_SENT_AT g.
Proof.
  intros Hquiet.
  destruct (failed env) eqn:Ef.
  - unfold failed in Ef.
    destruct (transport_error env) eqn:Et.
    { now rewrite (check_transport_error cfg env g Et). }
    destruct (thrown_in_try env) eqn:Ex.
    { destruct (Nat.le_gt_cases (MIN_ERROR_COUNT cfg) (S (ERROR_COUNT g))) as [Hle|Hgt].
      - now rewrite (check_thrown_at_threshold cfg env g Ex Hle).
      - now rewrite (check_thrown_below_threshold cfg env g Ex Hgt). }
    simpl in Ef. now rewrite (check_invalid_document cfg env g Ef).
  - destruct (qualifying cfg env) as [|first rest] eqn:Eq.
    + now rewrite (check_no_seats env g Ef Eq).
    + pose proof (check_by_trend cfg env g first rest Eq) as Hb. cbv zeta in Hb.
      destruct (trend (pricesSeen g) (calculateTotalPrice first)).
      * destruct Hb as [Hgate _].
        destruct (through_gate_cases cfg env g _ Hgate)
          as [(_ & _ & Hl & _)|(_ & Ha & _)]; [exact Hl|].
        rewrite Ha in Hquiet. discriminate.
      * apply Hb.
      * apply Hb.
      * apply Hb.
Qed.

End AfterTick.


(** X8.  A tick whose document validates but leaves no listing selected
    (none in the document, or none passing the filter) logs that no seats
    were found and resolves: the status is NO_SEATS, the error counter 0,
    the flag clear, and the price history and the time of the last alert
    are what they were; no alert is sent. *)
Theorem valid_tick_without_seats (cfg : Config) (env : Env) (g : Globals) :
  failed env = false ->
  qualifying cfg env = [] ->
  let t := check cfg env g in
  effects t = [console_log "No seats found."]
  /\ completion t = Resolved
  /\ getStatusMessage (globals t) = "NO_SEATS"
  /\ ERROR_COUNT (globals t) = 0%nat
  /\ pricesSeen (globals t) = pricesSeen g
  /\ LAST_TEXT_SENT_AT (globals t) = LAST_TEXT_SENT_AT g.
Proof.
  intros Hok Hnone t. unfold t. rewrite (check_no_seats cfg env g Hok Hnone).
  repeat split.
Qed.

(** X9.  After any tick the status message is NO_SEATS exactly when
    [AVAILABLE_SEATS] is empty; otherwise it begins with the header. *)
Theorem status_is_NO_SEATS_iff_no_seats (cfg : Config) (env : Env) (g : Globals) :
  let after := globals (check cfg env g) in
  (STATUS_MESSAGE after = "NO_SEATS" <-> AVAILABLE_SEATS after = [])
  /\ (AVAILABLE_SEATS after <> [] ->
      exists tail, STATUS_MESSAGE after = header cfg ++ tail).
Proof.
  intros after. unfold after. rewrite check_AVAILABLE_SEATS.
  destruct (qualifying cfg env) as [|first rest] eqn:Eq.
  - split; [|intros H; now elim H].
    split; [reflexivity|]. intros _.
    destruct (failed env) eqn:Ef.
    + apply (failed_status cfg env g Ef).
    + now rewrite (check_no_seats cfg env g Ef Eq).
  - assert (Hhead : exists tail,
               STATUS_MESSAGE (globals (check cfg env g)) = header cfg ++ tail).
    { pose proof (check_by_trend cfg env g first rest Eq) as Hb. cbv zeta in Hb.
      destruct (trend (pricesSeen g) (calculateTotalPrice first)).
      - destruct Hb as [_ Hmsg]. rewrite Hmsg, append_assoc. eauto.
      - destruct Hb as (_ & _ & _ & Hmsg). exists "". now rewrite append_empty.
      - destruct Hb as (_ & _ & _ & Hmsg). exists "". now rewrite append_empty.
      - destruct Hb as (_ & _ & _ & Hmsg). exists "". now rewrite append_empty. }
    split; [|intros _; exact Hhead].
    destruct Hhead as [tail Hmsg]. rewrite Hmsg.
    split; [intros H; now apply header_is_not_NO_SEATS in H | discriminate].
Qed.

(** X10.  On a tick with qualifying listings whose price is not a new low
    (decreased, increased or unchanged), the status message is the header
    alone: seats are available, and none of them is listed. *)
Theorem status_is_header_only_off_a_new_low
        (cfg : Config) (env : Env) (g : Globals) (first : Listing) (rest : list Listing) :
  qualifying cfg env = first :: rest ->
  trend (pricesSeen g) (calculateTotalPrice first) <> NEW_LOW ->
  let after := globals (check cfg env g) in
  getStatusMessage after = header cfg
  /\ AVAILABLE_SEATS after = first :: rest
  /\ alerts (check cfg env g) = [].
Proof.
  intros Hq Hnot after. unfold after.
  destruct (check_counters_after_success cfg env g (qualifying_not_failed cfg env first rest Hq))
    as [_ He].
  unfold getStatusMessage. rewrite He, check_AVAILABLE_SEATS, Hq.
  pose proof (check_by_trend cfg env g first rest Hq) as Hb. cbv zeta in Hb.
  unfold alerts.
  destruct (trend (pricesSeen g) (calculateTotalPrice first)); [now elim Hnot| | |];
    destruct Hb as (Heff & _ & _ & Hmsg); rewrite Heff, Hmsg; auto.
Qed.

(** ** Alerts (lines 165-214) *)

Section Alerts.

Variable cfg : Config.

(** A tick that sent an alert had a qualifying listing and took the
    NEW_LOW branch through the throttle. *)
Lemma alert_cases (env : Env) (g : Globals) :
  alerts (check cfg env g) <> [] ->
  exists first rest,
    qualifying cfg env = first :: rest
    /\ trend (pricesSeen g) (calculateTotalPrice first) = NEW_LOW
    /\ (interval_ms cfg <= Date_now_gate env - LAST_TEXT_SENT_AT g)%Z
    /\ alerts (check cfg env g)
       = [sendPushAlert "pushover" (STATUS_MESSAGE (globals (check cfg env g)))]
    /\ LAST_TEXT_SENT_AT (globals (check cfg env g)) = Date_now_stamp env.
Proof.
  intros Hsent.
  destruct (failed env) eqn:Ef.
  { destruct (failed_status cfg env g Ef) as [_ Hquiet]. now elim Hsent. }
  destruct (qualifying cfg env) as [|first rest] eqn:Eq.
  { rewrite (check_no_seats cfg env g Ef Eq) in Hsent. now elim Hsent. }
  exists first, rest. split; [reflexivity|].
  pose proof (check_by_trend cfg env g first rest Eq) as Hb. cbv zeta in Hb.
  unfold alerts in Hsent.
  destruct (trend (pricesSeen g) (calculateTotalPrice first)).
  - split; [reflexivity|]. destruct Hb as [Hgate _].
    destruct (through_gate_cases cfg env g _ Hgate)
      as [(_ & Ha & _)|(_ & Ha & Hl & Hc)].
    + unfold alerts in Ha. now elim Hsent.
    + auto.
  - destruct Hb as (He & _). rewrite He in Hsent. now elim Hsent.
  - destruct Hb as (He & _). rewrite He in Hsent. now elim Hsent.
  - destruct Hb as (He & _). rewrite He in Hsent. now elim Hsent.
Qed.

Lemma new_low_below_history (history : list Q) (cur : Q) :
  trend history cur = NEW_LOW -> Forall (fun p => cur < p) history.
Proof.
  destruct history as [|p ps]; [constructor|].
  unfold trend, classify.
  destruct (Qlt_bool cur (Math_min p ps)) eqn:E.
  - intros _. apply Qlt_bool_iff in E.
    eapply Forall_impl; [|apply (Math_min_lower_bound p ps)].
    intros q Hq. simpl in Hq. eapply Qlt_le_trans; eauto.
  - destruct (Qlt_bool cur (last ps p)); [discriminate|].
    destruct (Qlt_bool (last ps p) cur); discriminate.
Qed.

Lemma quiet_run_keeps_LAST (quiet : list Env) (g : Globals) :
  (forall before env after,
      quiet = (before ++ env :: after)%list ->
      alerts (check cfg env (run cfg before g)) = []) ->
  LAST_TEXT_SENT_AT (run cfg quiet g) = LAST_TEXT_SENT_AT g.
Proof.
  revert g. induction quiet as [|env quiet IH]; intros g Hquiet; [reflexivity|].
  change (run cfg (env :: quiet) g) with (run cfg quiet (globals (check cfg env g))).
  rewrite IH.
  - apply check_LAST_when_quiet. exact (Hquiet [] env quiet eq_refl).
  - intros before env' after Hsplit.
    exact (Hquiet (env :: before) env' after (f_equal (cons env) Hsplit)).
Qed.

Lemma check_clean_counters (env : Env) (g : Globals) :
  (2 <= MIN_ERROR_COUNT cfg)%nat ->
  ERROR_COUNT g = 0%nat ->
  ERROR_COUNT (globals (check cfg env g)) = 0%nat
  /\ ERROR (globals (check cfg env g)) = false.
Proof.
  intros Hmin Hzero.
  destruct (failed env) eqn:Ef; [|now apply check_counters_after_success].
  unfold failed in Ef.
  destruct (transport_error env) eqn:Et.
  { rewrite (check_transport_error cfg env g Et). simpl. auto. }
  destruct (thrown_in_try env) eqn:Ex.
  { rewrite (check_thrown_below_threshold cfg env g Ex) by lia. simpl. auto. }
  simpl in Ef. rewrite (check_invalid_document cfg env g Ef). simpl. auto.
Qed.

Lemma recorded_within_cap (env : Env) :
  Forall (fun p => p <= MAX_ALL_IN_PRICE_PER_SEAT cfg) (recorded cfg env).
Proof.
  unfold recorded.
  destruct (qualifying cfg env) as [|first rest] eqn:Eq; constructor; [|constructor].
  assert (Hin : In first (qualifying cfg env)) by (rewrite Eq; now left).
  apply qualifying_qualifies, qualifies_spec in Hin.
  apply Hin.
Qed.

End Alerts.

(** X11.  A tick sends an alert only on the NEW_LOW branch of a tick with
    qualifying listings, at least the interval after the last alert; it
    then sends exactly one, whose text is the status message the tick
    leaves, and stamps the time of the last alert.  A tick that sends none
    leaves that time unchanged. *)
Theorem alert_only_on_a_new_low (cfg : Config) (env : Env) (g : Globals) :
  let t := check cfg env g in
  (alerts t <> [] ->
     exists first rest,
       qualifying cfg env = first :: rest
       /\ trend (pricesSeen g) (calculateTotalPrice first) = NEW_LOW
       /\ (interval_ms cfg <= Date_now_gate env - LAST_TEXT_SENT_AT g)%Z
       /\ alerts t = [sendPushAlert "pushover" (STATUS_MESSAGE (globals t))]
       /\ LAST_TEXT_SENT_AT (globals t) = Date_now_stamp env)
  /\ (alerts t = [] -> LAST_TEXT_SENT_AT (globals t) = LAST_TEXT_SENT_AT g)
  /\ (failed env = true -> alerts t = []).
Proof.
  intros t. unfold t. split; [apply alert_cases|]. split.
  - apply check_LAST_when_quiet.
  - intros Hf. apply (failed_status cfg env g Hf).
Qed.

(** X12.  An alert is sent only for an all-time low: the price the tick
    appends to the history is then strictly below every price recorded
    before it. *)
Theorem alert_means_all_time_low (cfg : Config) (env : Env) (g : Globals) :
  alerts (check cfg env g) <> [] ->
  exists lowest,
    pricesSeen (globals (check cfg env g)) = (pricesSeen g ++ [lowest])%list
    /\ Forall (fun earlier => lowest < earlier) (pricesSeen g).
Proof.
  intros Hsent.
  destruct (alert_cases cfg env g Hsent) as (first & rest & Hq & Ht & _).
  exists (calculateTotalPrice first). split.
  - rewrite check_pricesSeen. unfold recorded. now rewrite Hq.
  - now apply new_low_below_history.
Qed.

(** X13.  Two alerts with no alert between them are at least the interval
    apart: when a tick sent an alert, the ticks after it sent none, and the
    next tick sends one, the clock at that tick's throttle is at least
    [TEXT_MAX_FREQUENCY_MINS] minutes past the stamp of the first alert. *)
Theorem alerts_in_a_run_are_spaced
        (cfg : Config) (g : Globals) (sender : Env) (quiet : list Env) (next : Env) :
  alerts (check cfg sender g) <> [] ->
  (forall before env after,
      quiet = (before ++ env :: after)%list ->
      alerts (check cfg env (run cfg before (globals (check cfg sender g)))) = []) ->
  alerts (check cfg next (run cfg quiet (globals (check cfg sender g)))) <> [] ->
  (TEXT_MAX_FREQUENCY_MINS cfg * 60 * 1000
   <= Date_now_gate next - Date_now_stamp sender)%Z.
Proof.
  intros Hfirst Hquiet Hnext.
  destruct (alert_cases cfg sender g Hfirst) as (_ & _ & _ & _ & _ & _ & Hstamp).
  destruct (alert_cases cfg next _ Hnext) as (_ & _ & _ & _ & Hgate & _).
  rewrite (quiet_run_keeps_LAST cfg quiet _ Hquiet), Hstamp in Hgate.
  exact Hgate.
Qed.

(** X14.  With a threshold of two or more the error state is out of reach:
    from globals with the counter at 0 and the flag clear, after any run of
    ticks, whatever each of them met, the counter is 0, the flag is clear
    and the accessor returns the status message, never ERROR through the
    flag. *)
Theorem error_state_is_unreachable (cfg : Config) (envs : list Env) (g : Globals) :
  (2 <= MIN_ERROR_COUNT cfg)%nat ->
  ERROR_COUNT g = 0%nat ->
  ERROR g = false ->
  ERROR_COUNT (run cfg envs g) = 0%nat
  /\ ERROR (run cfg envs g) = false
  /\ getStatusMessage (run cfg envs g) = STATUS_MESSAGE (run cfg envs g).
Proof.
  intros Hmin. revert g. induction envs as [|env envs IH]; intros g Hzero Hclear.
  - unfold getStatusMessage. simpl. now rewrite Hclear.
  - change (run cfg (env :: envs) g) with (run cfg envs (globals (check cfg env g))).
    destruct (check_clean_counters cfg env g Hmin Hzero) as [Hc He].
    now apply IH.
Qed.

(** X15.  A caught exception below the threshold leaves no count behind:
    control falls through the [catch] clause to line 143, which sets the
    counter back to 0, and the tick ends as one that found no seats. *)
Theorem caught_exception_below_threshold_is_forgotten
        (cfg : Config) (env : Env) (g : Globals) :
  thrown_in_try env = true ->
  (S (ERROR_COUNT g) < MIN_ERROR_COUNT cfg)%nat ->
  let t := check cfg env g in
  ERROR_COUNT (globals t) = 0%nat
  /\ ERROR (globals t) = false
  /\ getStatusMessage (globals t) = "NO_SEATS"
  /\ effects t = [console_error_caught; console_log "No seats found."]
  /\ completion t = Resolved
  /\ pricesSeen (globals t) = pricesSeen g.
Proof.
  intros Hx Hbelow t. unfold t.
  rewrite (check_thrown_below_threshold cfg env g Hx Hbelow).
  repeat split.
Qed.

(** X16.  No price above the cap enters the history: when every recorded
    price is at most [MAX_ALL_IN_PRICE_PER_SEAT], so is every recorded
    price after any run; from the empty history this holds of every
    entry. *)
Theorem recorded_prices_stay_within_the_cap
        (cfg : Config) (envs : list Env) (g : Globals) :
  Forall (fun p => p <= MAX_ALL_IN_PRICE_PER_SEAT cfg) (pricesSeen g) ->
  Forall (fun p => p <= MAX_ALL_IN_PRICE_PER_SEAT cfg) (pricesSeen (run cfg envs g)).
Proof.
  intros Hbefore. rewrite run_pricesSeen. apply Forall_app. split; [exact Hbefore|].
  induction envs as [|env envs IH]; simpl; [constructor|].
  apply Forall_app. split; [apply recorded_within_cap | exact IH].
Qed.

(** X17.  The same lowest price on the next tick is UNCHANGED: after a tick
    with qualifying listings, a tick whose lowest qualifying price equals
    that tick's sends no alert and leaves the header alone as the status
    message. *)
Theorem same_lowest_price_again_is_quiet
        (cfg : Config) (g : Globals) (env1 env2 : Env)
        (first1 first2 : Listing) (rest1 rest2 : list Listing) :
  qualifying cfg env1 = first1 :: rest1 ->
  qualifying cfg env2 = first2 :: rest2 ->
  calculateTotalPrice first2 == calculateTotalPrice first1 ->
  let g1 := globals (check cfg env1 g) in
  trend (pricesSeen g1) (calculateTotalPrice first2) = UNCHANGED
  /\ alerts (check cfg env2 g1) = []
  /\ STATUS_MESSAGE (globals (check cfg env2 g1)) = header cfg
  /\ LAST_TEXT_SENT_AT (globals (check cfg env2 g1)) = LAST_TEXT_SENT_AT g1.
Proof.
  intros Hq1 Hq2 Hsame g1.
  assert (Hhist : pricesSeen g1 = (pricesSeen g ++ [calculateTotalPrice first1])%list).
  { unfold g1. rewrite check_pricesSeen. unfold recorded. now rewrite Hq1. }
  assert (Hlast : is_last (calculateTotalPrice first1) (pricesSeen g1))
    by (exists (pricesSeen g); exact Hhist).
  assert (Htrend : trend (pricesSeen g1) (calculateTotalPrice first2) = UNCHANGED).
  { destruct (pricesSeen g1) as [|p ps] eqn:Eh.
    - destruct (pricesSeen g); discriminate.
    - assert (Hmin : is_min (Math_min p ps) (p :: ps))
        by (split; [apply Math_min_In | apply Math_min_lower_bound]).
      destruct (trend_spec (p :: ps) _ _ (calculateTotalPrice first2) Hmin Hlast)
        as (_ & _ & _ & Hu).
      now apply Hu. }
  split; [exact Htrend|].
  pose proof (check_by_trend cfg env2 g1 first2 rest2 Hq2) as Hb. cbv zeta in Hb.
  rewrite Htrend in Hb. destruct Hb as (He & _ & Hl & Hmsg).
  unfold alerts. rewrite He. auto.
Qed.

(** ** The further properties at sample inputs *)

Example safeParse_drops_the_proto_key :
  option_map (fun data => map fst (listings data))
             (outputSchema_safeParse
                (document [("__proto__", listing_toJSON (offer 20000));
                           ("a", listing_toJSON (offer 30000))]))
  = Some ["a"].
Proof. reflexivity. Qed.

Lemma safeParse_output_toJSON_witness :
  ~ In "__proto__" (map fst (listings (parsed four_offers)))
  /\ outputSchema_safeParse (output_toJSON (parsed four_offers))
     = Some (parsed four_offers).
Proof.
  assert (Hnone : ~ In "__proto__" (map fst (listings (parsed four_offers)))).
  { simpl. intros H. repeat (destruct H as [H|H]; [discriminate H|]). exact H. }
  split; [exact Hnone|].
  exact (proj2 (safeParse_output_toJSON (parsed four_offers)) Hnone).
Defined.

Lemma safeParse_rejects_on_one_bad_listing_witness :
  prop "listings" [("display_groups", JArray []);
                   ("listings", JObject [("a", listing_toJSON (offer 30000)); ("b", JNull)])]
  = Some (JObject [("a", listing_toJSON (offer 30000)); ("b", JNull)])
  /\ listingObj (listing_toJSON (offer 30000)) = Some (offer 30000)
  /\ listingObj JNull = None
  /\ outputSchema_safeParse
       (JObject [("display_groups", JArray []);
                 ("listings", JObject [("a", listing_toJSON (offer 30000)); ("b", JNull)])])
     = None.
Proof.
  split; [reflexivity|]. split; [reflexivity|]. split; [reflexivity|].
  apply (safeParse_rejects_on_one_bad_listing
           _ [("a", listing_toJSON (offer 30000)); ("b", JNull)] "b" JNull).
  - reflexivity.
  - right. left. reflexivity.
  - reflexivity.
Defined.

Lemma listingObj_ignores_unknown_keys_witness :
  ~ In "event_id" listing_keys
  /\ listingObj (JObject [("price", price_toJSON (price (offer 30000)));
                          ("lots", JArray [JNumber 1; JNumber 2]);
                          ("event_id", JString "64de74ca2d4ca900013dffc6");
                          ("seats", JArray [JString "*"; JString "*"]);
                          ("id", JString "a"); ("row", JString "5");
                          ("section", JString "101"); ("section_group", JString "Lower")])
     = Some (offer 30000).
Proof.
  assert (Hnew : ~ In "event_id" listing_keys).
  { unfold listing_keys. simpl. intros H.
    repeat (destruct H as [H|H]; [discriminate H|]). exact H. }
  split; [exact Hnew|].
  pose proof (listingObj_ignores_unknown_keys
                [("price", price_toJSON (price (offer 30000)));
                 ("lots", JArray [JNumber 1; JNumber 2])]
                [("seats", JArray [JString "*"; JString "*"]);
                 ("id", JString "a"); ("row", JString "5");
                 ("section", JString "101"); ("section_group", JString "Lower")]
                "event_id" (JString "64de74ca2d4ca900013dffc6") Hnew) as Hskip.
  cbn [app] in Hskip. rewrite Hskip. reflexivity.
Defined.

Lemma stable_sort_is_unique_witness :
  StronglySorted (fun a b => calculateTotalPrice a <= calculateTotalPrice b)
                 [offer 100; offer 200]
  /\ [offer 100; offer 200] = sort by_price [offer 200; offer 100].
Proof.
  assert (Hsorted : StronglySorted
                      (fun a b => calculateTotalPrice a <= calculateTotalPrice b)
                      [offer 100; offer 200]).
  { repeat constructor. unfold Qle. simpl. lia. }
  split; [exact Hsorted|].
  apply stable_sort_is_unique; [exact Hsorted|].
  intros p. simpl.
  destruct (priced p (offer 100)) eqn:E1, (priced p (offer 200)) eqn:E2; try reflexivity.
  exfalso. unfold priced in E1, E2. apply Qeq_bool_iff in E1, E2.
  rewrite <- E2 in E1. vm_compute in E1. discriminate E1.
Defined.

Lemma select_keeps_all_under_the_cap_witness :
  (length (filter_listings gametime (Object_values (listings (parsed four_offers))))
   <= MAX_RETURN_LIST gametime)%nat
  /\ Permutation (select gametime (parsed four_offers))
                 (filter_listings gametime (Object_values (listings (parsed four_offers)))).
Proof.
  assert (Hcap : (length (filter_listings gametime
                            (Object_values (listings (parsed four_offers))))
                  <= MAX_RETURN_LIST gametime)%nat) by (vm_compute; lia).
  split; [exact Hcap|].
  exact (proj1 (select_keeps_all_under_the_cap gametime (parsed four_offers) Hcap)).
Defined.


Lemma valid_tick_without_seats_witness :
  failed (tick_at noon (document [])) = false
  /\ qualifying gametime (tick_at noon (document [])) = []
  /\ getStatusMessage
       (globals (check gametime (tick_at noon (document []))
                       (globals (check gametime (tick_at noon four_offers) initial))))
     = "NO_SEATS".
Proof.
  split; [reflexivity|]. split; [reflexivity|].
  pose proof (valid_tick_without_seats gametime (tick_at noon (document []))
                (globals (check gametime (tick_at noon four_offers) initial))
                eq_refl eq_refl) as H.
  cbv zeta in H. destruct H as (_ & _ & Hstatus & _). exact Hstatus.
Defined.

Lemma status_is_NO_SEATS_iff_no_seats_witness :
  AVAILABLE_SEATS (globals (check gametime (tick_at noon four_offers) initial)) <> []
  /\ exists tail,
       STATUS_MESSAGE (globals (check gametime (tick_at noon four_offers) initial))
       = header gametime ++ tail.
Proof.
  assert (Hseats : AVAILABLE_SEATS (globals (check gametime (tick_at noon four_offers)
                                                   initial)) <> []) by discriminate.
  split; [exact Hseats|].
  pose proof (status_is_NO_SEATS_iff_no_seats gametime (tick_at noon four_offers) initial)
    as H.
  cbv zeta in H. destruct H as [_ Hhead]. exact (Hhead Hseats).
Defined.

Lemma status_is_header_only_off_a_new_low_witness :
  qualifying generous (tick_at noon (one_offer 49000)) = [offer 49000]
  /\ trend [500; 480] (calculateTotalPrice (offer 49000)) <> NEW_LOW
  /\ getStatusMessage (globals (check generous (tick_at noon (one_offer 49000))
                                      (set_pricesSeen [500; 480] initial)))
     = header generous.
Proof.
  assert (Hq : qualifying generous (tick_at noon (one_offer 49000)) = [offer 49000])
    by reflexivity.
  assert (Hnot : trend (pricesSeen (set_pricesSeen [500; 480] initial))
                       (calculateTotalPrice (offer 49000)) <> NEW_LOW) by discriminate.
  split; [exact Hq|]. split; [exact Hnot|].
  pose proof (status_is_header_only_off_a_new_low generous (tick_at noon (one_offer 49000))
                (set_pricesSeen [500; 480] initial) (offer 49000) [] Hq Hnot) as H.
  cbv zeta in H. destruct H as [Hmsg _]. exact Hmsg.
Defined.

Lemma alert_only_on_a_new_low_witness :
  alerts (check gametime (tick_at noon (one_offer 30000)) initial) <> []
  /\ LAST_TEXT_SENT_AT (globals (check gametime (tick_at noon (one_offer 30000)) initial))
     = noon
  /\ failed offline = true
  /\ alerts (check gametime offline initial) = [].
Proof.
  assert (Hsent : alerts (check gametime (tick_at noon (one_offer 30000)) initial) <> [])
    by discriminate.
  pose proof (alert_only_on_a_new_low gametime (tick_at noon (one_offer 30000)) initial)
    as Hon.
  pose proof (alert_only_on_a_new_low gametime offline initial) as Hoff.
  cbv zeta in Hon, Hoff.
  destruct Hon as (Hon & _). destruct Hoff as (_ & _ & Hoff).
  destruct (Hon Hsent) as (first & rest & _ & _ & _ & _ & Hstamp).
  split; [exact Hsent|]. split; [exact Hstamp|].
  split; [reflexivity | exact (Hoff eq_refl)].
Defined.

Lemma alert_means_all_time_low_witness :
  alerts (check gametime (tick_at (noon + minutes 20) (one_offer 29000))
                (set_pricesSeen [300; 310] initial)) <> []
  /\ exists lowest,
       pricesSeen (globals (check gametime (tick_at (noon + minutes 20) (one_offer 29000))
                                  (set_pricesSeen [300; 310] initial)))
       = [300; 310; lowest]
       /\ Forall (fun earlier => lowest < earlier) [300; 310].
Proof.
  assert (Hsent : alerts (check gametime (tick_at (noon + minutes 20) (one_offer 29000))
                                (set_pricesSeen [300; 310] initial)) <> [])
    by discriminate.
  split; [exact Hsent|].
  exact (alert_means_all_time_low gametime (tick_at (noon + minutes 20) (one_offer 29000))
                                  (set_pricesSeen [300; 310] initial) Hsent).
Defined.

Lemma alerts_in_a_run_are_spaced_witness :
  alerts (check gametime (tick_at noon (one_offer 30000)) initial) <> []
  /\ alerts (check gametime (tick_at (noon + minutes 14) (one_offer 29000))
                   (globals (check gametime (tick_at noon (one_offer 30000)) initial)))
     = []
  /\ alerts (check gametime (tick_at (noon + minutes 20) (one_offer 28000))
                   (run gametime [tick_at (noon + minutes 14) (one_offer 29000)]
                        (globals (check gametime (tick_at noon (one_offer 30000))
                                        initial)))) <> []
  /\ (TEXT_MAX_FREQUENCY_MINS gametime * 60 * 1000
      <= Date_now_gate (tick_at (noon + minutes 20) (one_offer 28000))
         - Date_now_stamp (tick_at noon (one_offer 30000)))%Z.
Proof.
  assert (Hfirst : alerts (check gametime (tick_at noon (one_offer 30000)) initial) <> [])
    by discriminate.
  assert (Hquiet : alerts (check gametime (tick_at (noon + minutes 14) (one_offer 29000))
                                 (globals (check gametime (tick_at noon (one_offer 30000))
                                                 initial))) = []) by reflexivity.
  assert (Hnext : alerts (check gametime (tick_at (noon + minutes 20) (one_offer 28000))
                                (run gametime [tick_at (noon + minutes 14) (one_offer 29000)]
                                     (globals (check gametime (tick_at noon (one_offer 30000))
                                                     initial)))) <> [])
    by discriminate.
  split; [exact Hfirst|]. split; [exact Hquiet|]. split; [exact Hnext|].
  apply (alerts_in_a_run_are_spaced gametime initial (tick_at noon (one_offer 30000))
           [tick_at (noon + minutes 14) (one_offer 29000)]
           (tick_at (noon + minutes 20) (one_offer 28000)) Hfirst); [|exact Hnext].
  intros [|b before] env after Hsplit.
  - injection Hsplit as <- _. exact Hquiet.
  - destruct before; discriminate Hsplit.
Defined.

Lemma error_state_is_unreachable_witness :
  (2 <= MIN_ERROR_COUNT gametime)%nat
  /\ ERROR_COUNT initial = 0%nat
  /\ ERROR initial = false
  /\ ERROR (run gametime [crashing; crashing; crashing; crashing; tick_at noon malformed;
                          offline] initial) = false.
Proof.
  assert (Hmin : (2 <= MIN_ERROR_COUNT gametime)%nat) by (simpl; lia).
  split; [exact Hmin|]. split; [reflexivity|]. split; [reflexivity|].
  exact (proj1 (proj2 (error_state_is_unreachable gametime
                         [crashing; crashing; crashing; crashing; tick_at noon malformed;
                          offline] initial Hmin eq_refl eq_refl))).
Defined.

Lemma caught_exception_below_threshold_is_forgotten_witness :
  thrown_in_try crashing = true
  /\ (S (ERROR_COUNT (set_ERROR_COUNT 2 initial)) < MIN_ERROR_COUNT gametime)%nat
  /\ ERROR_COUNT (globals (check gametime crashing (set_ERROR_COUNT 2 initial))) = 0%nat.
Proof.
  assert (Hbelow : (S (ERROR_COUNT (set_ERROR_COUNT 2 initial))
                    < MIN_ERROR_COUNT gametime)%nat) by (simpl; lia).
  split; [reflexivity|]. split; [exact Hbelow|].
  pose proof (caught_exception_below_threshold_is_forgotten gametime crashing
                (set_ERROR_COUNT 2 initial) eq_refl Hbelow) as H.
  cbv zeta in H. exact (proj1 H).
Defined.

Lemma recorded_prices_stay_within_the_cap_witness :
  Forall (fun p => p <= MAX_ALL_IN_PRICE_PER_SEAT gametime) (pricesSeen initial)
  /\ Forall (fun p => p <= MAX_ALL_IN_PRICE_PER_SEAT gametime)
            (pricesSeen (run gametime [tick_at noon four_offers;
                                       tick_at noon (one_offer 36000)] initial)).
Proof.
  assert (Hnone : Forall (fun p => p <= MAX_ALL_IN_PRICE_PER_SEAT gametime)
                         (pricesSeen initial)) by constructor.
  split; [exact Hnone|].
  exact (recorded_prices_stay_within_the_cap gametime
           [tick_at noon four_offers; tick_at noon (one_offer 36000)] initial Hnone).
Defined.

Lemma same_lowest_price_again_is_quiet_witness :
  qualifying gametime (tick_at noon (one_offer 30000)) = [offer 30000]
  /\ qualifying gametime (tick_at (noon + minutes 30) (one_offer 30000)) = [offer 30000]
  /\ calculateTotalPrice (offer 30000) == calculateTotalPrice (offer 30000)
  /\ alerts (check gametime (tick_at (noon + minutes 30) (one_offer 30000))
                   (globals (check gametime (tick_at noon (one_offer 30000)) initial)))
     = [].
Proof.
  assert (Hq1 : qualifying gametime (tick_at noon (one_offer 30000)) = [offer 30000])
    by reflexivity.
  assert (Hq2 : qualifying gametime (tick_at (noon + minutes 30) (one_offer 30000))
                = [offer 30000]) by reflexivity.
  assert (Hsame : calculateTotalPrice (offer 30000) == calculateTotalPrice (offer 30000))
    by reflexivity.
  split; [exact Hq1|]. split; [exact Hq2|]. split; [exact Hsame|].
  pose proof (same_lowest_price_again_is_quiet gametime initial
                (tick_at noon (one_offer 30000))
                (tick_at (noon + minutes 30) (one_offer 30000))
                (offer 30000) (offer 30000) [] [] Hq1 Hq2 Hsame) as H.
  cbv zeta in H. destruct H as (_ & Hquiet & _). exact Hquiet.
Defined.
